(** * backyourstack, [src/lib/github.js]: the GitHub data-acquisition layer

    A shallow embedding of the module and the properties its specification
    states about it.

    - JavaScript records are finite maps from property names to values;
      what the provider sends is not trusted to carry any property.
    - The process-wide cache is a finite map from key strings to what the
      module stores in it; the keys are the strings the module builds.
    - A function that talks to the cache, to the provider or to the
      raw-content host is a state transformer over a [World], which also
      keeps the chronological trace of the remote requests issued.  An
      [await] is sequential composition; a rejected promise and a thrown
      exception are both [Throw].
    - The [while (true)] loops take fuel, and running out of it is an
      outcome of its own.
    - The module never mutates a record or a list after it has stored or
      returned it ([donateToken] pushes to the pool and stores that same
      list at once), so values are immutable here. *)

From Stdlib Require Import Ascii.
From stdpp Require Import gmap strings list fin_maps pretty.

Local Set Warnings "-register-all,-clear-no-such-hyp".

(** ** JavaScript values *)

Module JS.

(** The values a property of a provider record can hold: JSON, plus
    [undefined].  Numbers are the integers; an integer stands for the
    double nearest to it. *)
Inductive value :=
  | VUndefined
  | VNull
  | VBool (b : bool)
  | VNum (n : Z)
  | VStr (s : string)
  | VArr (l : list value)
  | VObj (o : gmap string value).

(** A record (plain object): property name to value. *)
Abbreviation obj := (gmap string value).

(** [o.k]: the property when the object has it, [undefined] otherwise. *)
Definition get (k : string) (o : obj) : value := default VUndefined (o !! k).

(** [v.k] on an arbitrary value, for a property name [k] that is no
    built-in property of strings, numbers, booleans and arrays ([login],
    [repository] and [path] are read this way): reading a property of
    [undefined] or [null] throws a TypeError ([None]); every other value
    answers, with [undefined] when it is not a record. *)
Definition member (v : value) (k : string) : option value :=
  match v with
  | VUndefined | VNull => None
  | VObj o => Some (get k o)
  | _ => Some VUndefined
  end.

(** ToBoolean, as [if (v)] and [!v] apply it. *)
Definition truthy (v : value) : bool :=
  match v with
  | VUndefined | VNull => false
  | VBool b => b
  | VNum n => negb (n =? 0)%Z
  | VStr s => negb (bool_decide (s = ""))
  | VArr _ | VObj _ => true
  end.

(** The double nearest to a natural number, ties to even: the number a
    JavaScript program holds for an integer of any size. *)
Definition round53 (v : Z) : Z :=
  let bits := (Z.log2 v + 1)%Z in
  if (bits <=? 53)%Z then v
  else
    let shift := (bits - 53)%Z in
    let q := Z.shiftr v shift in
    let r := Z.land v (Z.ones shift) in
    let half := Z.shiftl 1 (shift - 1) in
    let q :=
      if (half <? r)%Z || ((r =? half)%Z && Z.odd q) then (q + 1)%Z else q in
    Z.shiftl q shift.

(** The decimal with the fewest significant digits that still denotes the
    double [x], the closest one when several do (the digits Number's
    ToString prints): for [k] = 1, 2, ... significant digits, the two
    [k]-digit decimals around [x] are tried. *)
Definition decimals_of (x : Z) (k : nat) : list Z :=
  let n := String.length (pretty x) in
  let scale := (10 ^ Z.of_nat (n - k))%Z in
  let below := (x / scale * scale)%Z in
  let above := (below + scale)%Z in
  let fits := fun v => (round53 v =? x)%Z in
  match fits below, fits above with
  | true, true =>
      if (x - below <? above - x)%Z then [below]
      else if (above - x <? x - below)%Z then [above]
      else if Z.even (x / scale) then [below] else [above]
  | true, false => [below]
  | false, true => [above]
  | false, false => []
  end.

Definition shortest_decimal (x : Z) : Z :=
  default x (head (flat_map (decimals_of x) (seq 1 17))).

Fixpoint drop_zeros (s : string) : string :=
  match s with
  | String "0" s' => drop_zeros s'
  | _ => s
  end.

(** Number's ToString on an integer: the shortest digits, in plain
    decimal below 10^21 and in exponent form from there on; an integer
    that rounds beyond the largest double is [Infinity]. *)
Definition Number_toString (n : Z) : string :=
  if (n =? 0)%Z then "0"
  else
    let sign := if (n <? 0)%Z then "-" else "" in
    let x := round53 (Z.abs n) in
    if (2 ^ 1024 <=? x)%Z then sign +:+ "Infinity"
    else
      let digits := pretty (shortest_decimal x) in
      let significant := String.rev (drop_zeros (String.rev digits)) in
      if bool_decide (String.length digits ≤ 21) then sign +:+ digits
      else
        match significant with
        | String d EmptyString =>
            sign +:+ String d "e+" +:+ pretty (String.length digits - 1)
        | String d rest =>
            sign +:+ String d ("." +:+ rest) +:+ "e+"
              +:+ pretty (String.length digits - 1)
        | EmptyString => sign +:+ digits
        end.

(** ToString, as a template literal applies it to an interpolated value. *)
Fixpoint toStr (v : value) : string :=
  match v with
  | VUndefined => "undefined"
  | VNull => "null"
  | VBool true => "true"
  | VBool false => "false"
  | VNum n => Number_toString n
  | VStr s => s
  | VArr l =>
      String.concat ","
        (map (fun x => match x with
                       | VUndefined | VNull => ""
                       | _ => toStr x
                       end) l)
  | VObj _ => "[object Object]"
  end.

(** [v === b] for a boolean literal [b]. *)
Definition is_bool (b : bool) (v : value) : bool :=
  match v with
  | VBool b' => eqb b b'
  | _ => false
  end.

(** [v === s] for a string literal [s]. *)
Definition is_string (s : string) (v : value) : bool :=
  match v with
  | VStr s' => bool_decide (s' = s)
  | _ => false
  end.

(** [v == s] for a string literal [s] that is not numeric: a string
    compares by value, an array or record through its ToString, and a
    number, boolean, [null] or [undefined] is never equal to it. *)
Definition loosely_string (s : string) (v : value) : bool :=
  match v with
  | VStr s' => bool_decide (s' = s)
  | VArr _ | VObj _ => bool_decide (toStr v = s)
  | _ => false
  end.

(** lodash [pick(o, ks)] on a record: a fresh record with the listed
    properties that [o] has; a property [o] lacks is not created. *)
Definition pick (ks : list string) (o : obj) : obj :=
  filter (fun kv => kv.1 ∈ ks) o.

(** lodash [pick(v, ks)] on an arbitrary value: [{}] unless [v] is a
    record. *)
Definition pick_value (ks : list string) (v : value) : obj :=
  match v with
  | VObj o => pick ks o
  | _ => ∅
  end.

End JS.
Export JS.

(** ** Access tokens *)

(** An access token is an opaque string, or [undefined] ([None]) when the
    caller supplies none. *)
Abbreviation token := (option string).

(** [if (accessToken)]: [undefined] and the empty string are falsy. *)
Definition supplied (t : token) : bool :=
  match t with
  | Some s => negb (bool_decide (s = ""))
  | None => false
  end.

(** [`${accessToken}`]. *)
Definition token_text (t : token) : string :=
  match t with
  | Some s => s
  | None => "undefined"
  end.

(** ** Compact repositories *)

(** [compactRepo]. *)
Definition compactRepo (repo : obj) : obj :=
  let repo :=
    pick ["id"; "name"; "owner"; "full_name"; "default_branch"; "private";
          "language"] repo in
  <["owner" := VObj (pick_value ["login"] (get "owner" repo))]> repo.

(** ** The world: cache, provider, raw-content host, runtime *)

(** What the module stores in the cache: a profile record under
    [profile_<login>], a list of compact repositories under the two
    [profile_repos_...] keys, the donated tokens under [donatedTokens]. *)
Inductive entry :=
  | Profile (o : obj)
  | Repos (l : list obj)
  | Tokens (l : list token).

(** The octokit client as [getOctokit] returns it: authenticated with a
    token, or anonymous ([None]). *)
Abbreviation credentials := (option string).

(** A remote request, as it leaves the process. *)
Inductive event :=
  | Request (path : string) (params : obj) (auth : credentials)
  | RawFetch (url : string).

(** The state the functions thread: the cache and the chronological trace
    of the requests issued so far. *)
Record World := mkWorld {
  cache : gmap string entry;
  trace : list event;
}.

(** Modelled from the spec: the cache collaborator [./cache] is not among
    the sources; section 6 gives its interface as a flat key-value store,
    [has(key): bool], [get(key): value|undefined], [set(key, value): void].
    Expiry is the collaborator's own business and appears as the [Evict]
    step of a run. *)
Definition cache_get (k : string) (w : World) : option entry := cache w !! k.

(** Modelled from the spec: [has(key)] of the cache collaborator. *)
Definition cache_has (k : string) (w : World) : bool :=
  bool_decide (is_Some (cache w !! k)).

(** Modelled from the spec: [set(key, value)] of the cache collaborator. *)
Definition cache_set (k : string) (e : entry) (w : World) : World :=
  mkWorld (<[k := e]> (cache w)) (trace w).

Definition log (ev : event) (w : World) : World :=
  mkWorld (cache w) (trace w ++ [ev]).

(** What can be thrown: the reason the provider or the transport rejected
    a request with, handed on as it came; a TypeError of the runtime; an
    [Error] the module creates itself. *)
Inductive error :=
  | Rejection (reason : value)
  | TypeError
  | Error (message : string).

Inductive result (A : Type) :=
  | Ok (a : A)
  | Err (reason : value).
Arguments Ok {A} a.
Arguments Err {A} reason.

(** The shape of an octokit operation's [data]: one record
    ([users.getForUser], [orgs.get], [repos.getContent], [search.code]) or
    a page of records ([repos.getForUser], [repos.getForOrg]). *)
Inductive shape := Single | Many.

Definition payload (s : shape) : Type :=
  match s with
  | Single => obj
  | Many => list obj
  end.

(** One outcome of [Math.random()]: a double in [0, 1).  These are the
    numbers [mant / 2 ^ expo] with [expo] at most 1074 and [mant] below
    [2 ^ 53] and below [2 ^ expo]; the two fields of a sample are cut
    down to that. *)
Record sample := mkSample { digits : N; scale : N }.

Definition expo (u : sample) : N := N.min (scale u) 1074.

Definition mant (u : sample) : N := (digits u mod 2 ^ N.min (expo u) 53)%N.

Definition den (u : sample) : N := (2 ^ expo u)%N.

(** [Math.floor(u * n)] in double arithmetic, for a list of [n] elements.
    The exact product is [mant * n / den]; the multiplication rounds it
    to the nearest double, ties to even, and the floor of that double is
    the whole part of the exact product, or one more when the exact
    product lies within half a unit in the last place of the next whole
    number: at a whole part of [b] bits the doubles are [2 ^ (b - 53)]
    apart, so that is when the fraction is at least [1 - 2 ^ (b - 54)].
    (Exact for lists of fewer than [2 ^ 52] elements, as every array
    is.) *)
Definition floor_times (u : sample) (n : nat) : nat :=
  let product := (mant u * N.of_nat n)%N in
  let whole := (product / den u)%N in
  let rest := (product mod den u)%N in
  N.to_nat
    (if ((den u - rest) * 2 ^ 54 <=? 2 ^ N.size whole * den u)%N
     then whole + 1 else whole)%N.

Record response := mkResponse { status : Z; text : string }.

(** Everything outside the module: the guest token of the process
    environment, [Math.random], the provider behind octokit, the
    raw-content host behind [fetch], and Node's
    [Buffer.from(x, 'base64').toString('utf8')] ([None] when it throws).
    The provider, the raw-content host and the random source answer as a
    function of the requests issued so far, so successive calls may be
    answered differently. *)
Record Env := mkEnv {
  GITHUB_GUEST_TOKEN : token;
  Math_random : list event -> sample;
  octokit : list event -> forall s : shape,
            string -> obj -> credentials -> result (payload s);
  fetch : list event -> string -> result response;
  Buffer_base64_utf8 : value -> option string;
}.

(** ** Computations *)

Inductive outcome (A : Type) :=
  | Ret (a : A)
  | Throw (e : error)
  | OutOfFuel.
Arguments Ret {A} a.
Arguments Throw {A} e.
Arguments OutOfFuel {A}.

Definition M (A : Type) : Type := World -> outcome A * World.

#[export] Instance M_ret : MRet M := fun A a w => (Ret a, w).

#[export] Instance M_bind : MBind M := fun A B f m w =>
  match m w with
  | (Ret a, w') => f a w'
  | (Throw e, w') => (Throw e, w')
  | (OutOfFuel, w') => (OutOfFuel, w')
  end.

Definition throw {A} (e : error) : M A := fun w => (Throw e, w).

(** [silentError]: logs the error and returns [undefined]. *)
Definition silentError {A} (err : error) : option A := None.

(** [p.catch(handler)]: the value of [p], or what the handler makes of its
    rejection. *)
Definition catch {A} (m : M A) (handler : error -> option A)
    : M (option A) := fun w =>
  match m w with
  | (Ret a, w') => (Ret (Some a), w')
  | (Throw err, w') => (Ret (handler err), w')
  | (OutOfFuel, w') => (OutOfFuel, w')
  end.

Section Github.

Variable env : Env.

(** The donated-token pool, [cache.get('donatedTokens') || []].  Only
    [donateToken] writes this key and no [profile_...] key equals it
    ([pool_key_typed] below), so nothing but a token list is ever read
    here. *)
Definition donatedTokens (w : World) : list token :=
  match cache_get "donatedTokens" w with
  | Some (Tokens l) => l
  | _ => []
  end.

(** [getOctokit]. *)
Definition getOctokit (accessToken : token) (w : World) : credentials :=
  let accessToken :=
    if negb (supplied accessToken) then
      let pool := donatedTokens w in
      if bool_decide (0 < length pool) then
        default None
          (pool !! floor_times (Math_random env (trace w)) (length pool))
      else accessToken
    else accessToken in
  let accessToken :=
    if negb (supplied accessToken) then GITHUB_GUEST_TOKEN env
    else accessToken in
  if supplied accessToken then accessToken else None.

(** [fetchWithOctokit]: resolve the credentials, issue the request, unwrap
    [res.data]; a rejection propagates unmodified. *)
Definition fetchWithOctokit (s : shape) (path : string) (params : obj)
    (accessToken : token) : M (payload s) := fun w =>
  let auth := getOctokit accessToken w in
  match octokit env (trace w) s path params auth with
  | Ok data => (Ret data, log (Request path params auth) w)
  | Err reason => (Throw (Rejection reason), log (Request path params auth) w)
  end.

(** [getContent]. *)
Definition getContent (data : obj) : M string :=
  match Buffer_base64_utf8 env (get "content" data) with
  | Some s => mret s
  | None => throw TypeError
  end.

(** [user && user.type !== 'Organization'], keeping the record when the
    test passes. *)
Definition as_user (user : option obj) : option obj :=
  match user with
  | Some u =>
      if negb (is_string "Organization" (get "type" u)) then Some u else None
  | None => None
  end.

(** [cache.set(key, e)] as a step of a computation. *)
Definition store (k : string) (e : entry) : M unit := fun w =>
  (Ret tt, cache_set k e w).

(** [fetchProfile]; [null] is [None]. *)
Definition fetchProfile (login : string) (accessToken : token)
    : M (option entry) := fun w =>
  let cacheKey := "profile_" +:+ login in
  match cache_get cacheKey w with
  | Some profile => (Ret (Some profile), w)
  | None =>
      (user ← catch
         (fetchWithOctokit Single "users.getForUser"
            {[ "username" := VStr login ]} accessToken) silentError;
       match as_user user with
       | Some user =>
           store cacheKey (Profile user);; mret (Some (Profile user))
       | None =>
           org ← catch
             (fetchWithOctokit Single "orgs.get"
                {[ "org" := VStr login ]} accessToken) silentError;
           match org with
           | Some org =>
               store cacheKey (Profile org);; mret (Some (Profile org))
           | None => mret None
           end
       end) w
  end.

(** The parameters of one page request: the operation's own parameters
    with [page] and [per_page: 100]. *)
Definition per_page : nat := 100.

Definition page_params (getReposParameters : obj) (page : Z) : obj :=
  <["per_page" := VNum (Z.of_nat per_page)]>
    (<["page" := VNum page]> getReposParameters).

(** The [while (true)] loop of [fetchReposForProfile], one iteration per
    unit of fuel. *)
Fixpoint paginate (fuel : nat) (getReposPath : string)
    (getReposParameters : obj) (accessToken : token) (page : Z)
    (repos : list obj) : M (list obj) :=
  match fuel with
  | O => fun w => (OutOfFuel, w)
  | S fuel =>
      fetchRepos ← fetchWithOctokit Many getReposPath
                     (page_params getReposParameters page) accessToken;
      let repos := repos ++ fetchRepos in
      if bool_decide (length fetchRepos < per_page) then mret repos
      else paginate fuel getReposPath getReposParameters accessToken
             (page + 1)%Z repos
  end.

Definition publicCacheKey (profile : obj) : string :=
  "profile_repos_" +:+ toStr (get "login" profile).

Definition privateCacheKey (profile : obj) (accessToken : token) : string :=
  "profile_repos_" +:+ toStr (get "login" profile) +:+ "_"
    +:+ token_text accessToken.

(** The two early returns of [fetchReposForProfile]. *)
Definition cached_repos (profile : obj) (accessToken : token) (w : World)
    : option entry :=
  if supplied accessToken && cache_has (privateCacheKey profile accessToken) w
  then cache_get (privateCacheKey profile accessToken) w
  else if negb (supplied accessToken) && cache_has (publicCacheKey profile) w
  then cache_get (publicCacheKey profile) w
  else None.

(** The operation that lists a profile's repositories, and its
    parameters: [profile.type == 'Organization'] picks the organization's
    listing. *)
Definition listing (profile : obj) : string * obj :=
  if loosely_string "Organization" (get "type" profile)
  then ("repos.getForOrg", {[ "org" := get "login" profile ]})
  else ("repos.getForUser", {[ "username" := get "login" profile ]}).

Definition not_fork (repo : obj) : bool := is_bool false (get "fork" repo).

Definition not_private (repo : obj) : bool :=
  is_bool false (get "private" repo).

(** The end of [fetchReposForProfile], once the loop has left the records
    fetched in [repos]: filter the forks, compact, save in the private and
    in the public cache, return. *)
Definition saveRepos (profile : obj) (accessToken : token)
    (repos : list obj) : M entry :=
  let repos := filter (fun repo => not_fork repo) repos in
  let repos := map compactRepo repos in
  store (privateCacheKey profile accessToken) (Repos repos);;
  let publicRepos := filter (fun repo => not_private repo) repos in
  store (publicCacheKey profile) (Repos publicRepos);;
  mret (Repos (if supplied accessToken then repos else publicRepos)).

(** [fetchReposForProfile]. *)
Definition fetchReposForProfile (fuel : nat) (profile : obj)
    (accessToken : token) : M entry := fun w =>
  match cached_repos profile accessToken w with
  | Some repos => (Ret repos, w)
  | None =>
      (let '(getReposPath, getReposParameters) := listing profile in
       repos ← paginate fuel getReposPath getReposParameters accessToken 1 [];
       saveRepos profile accessToken repos) w
  end.

Definition baseRawUrl : string := "https://raw.githubusercontent.com".

(** [fetch(url)] of cross-fetch: the request is issued; the promise
    resolves with a response or rejects. *)
Definition raw_fetch (url : string) : M response := fun w =>
  match fetch env (trace w) url with
  | Ok r => (Ret r, log (RawFetch url) w)
  | Err reason => (Throw (Rejection reason), log (RawFetch url) w)
  end.

Definition relativeUrl (repo : obj) (path : string) : string :=
  "/" +:+ toStr (get "full_name" repo) +:+ "/"
    +:+ toStr (get "default_branch" repo) +:+ "/" +:+ path.

(** [fetchFileFromRepo]. *)
Definition fetchFileFromRepo (repo : obj) (path : string)
    (accessToken : token) : M string :=
  if negb (truthy (get "default_branch" repo))
     || is_bool true (get "private" repo)
  then
    match member (get "owner" repo) "login" with
    | None => throw TypeError
    | Some login =>
        let params : obj :=
          {[ "owner" := login; "repo" := get "name" repo;
             "path" := VStr path ]} in
        data ← fetchWithOctokit Single "repos.getContent" params accessToken;
        getContent data
    end
  else
    response ← raw_fetch (baseRawUrl +:+ relativeUrl repo path);
    if bool_decide (status response = 200%Z) then mret (text response)
    else throw (Error ("Can't fetch " +:+ path +:+ " from "
                         +:+ relativeUrl repo path +:+ ".")).

(** A file reference, [{ repo, path }]. *)
Record file := mkFile { repo : obj; path : value }.

(** [compactRepo] on an arbitrary value: what is not a record has none of
    the properties picked. *)
Definition compact_value (v : value) : obj :=
  match v with
  | VObj o => compactRepo o
  | _ => compactRepo ∅
  end.

(** [item => ({ repo: compactRepo(item.repository), path: item.path })];
    [None] is the TypeError of reading a property of [undefined] or
    [null]. *)
Definition file_reference (item : value) : option file :=
  repository ← member item "repository";
  path ← member item "path";
  Some (mkFile (compact_value repository) path).

(** [result.items.map(...)]; only an array has [map]. *)
Definition file_references (items : value) : option (list file) :=
  match items with
  | VArr l => mapM file_reference l
  | _ => None
  end.

(** The [while (true)] loop of [searchFilesFromProfile]. *)
Fixpoint search_pages (fuel : nat) (searchParameters : obj)
    (accessToken : token) (page : Z) (files : list file) : M (list file) :=
  match fuel with
  | O => fun w => (OutOfFuel, w)
  | S fuel =>
      result ← fetchWithOctokit Single "search.code"
                 (page_params searchParameters page) accessToken;
      match file_references (get "items" result) with
      | None => throw TypeError
      | Some searchFiles =>
          let files := files ++ searchFiles in
          if bool_decide (length searchFiles < per_page) then mret files
          else search_pages fuel searchParameters accessToken
                 (page + 1)%Z files
      end
  end.

(** [searchFilesFromProfile]. *)
Definition searchFilesFromProfile (fuel : nat) (profile : obj)
    (pattern : string) (accessToken : token) : M (list file) :=
  let scope :=
    if loosely_string "Organization" (get "type" profile)
    then "org:" +:+ toStr (get "login" profile)
    else "user:" +:+ toStr (get "login" profile) in
  let searchParameters : obj :=
    {[ "q" := VStr (scope +:+ " " +:+ "filename:" +:+ pattern) ]} in
  search_pages fuel searchParameters accessToken 1 [].

(** [donateToken]; [indexOf(accessToken) === -1] is non-membership. *)
Definition donateToken (accessToken : token) : M unit := fun w =>
  let pool := donatedTokens w in
  if bool_decide (accessToken ∉ pool)
  then store "donatedTokens" (Tokens (pool ++ [accessToken])) w
  else (Ret tt, w).

(** ** Runs *)

(** What can happen to the world: a call of one of the exported functions
    that runs to its end; the end of a [fetchReposForProfile] that was
    suspended in its loop, awaiting a page, while other calls ran, and
    completes with the records [fetched] (its page requests are [Octokit]
    steps); or the cache dropping an entry. *)
Inductive call :=
  | FetchProfile (login : string) (accessToken : token)
  | FetchRepos (profile : obj) (accessToken : token)
  | FetchFile (repo : obj) (path : string) (accessToken : token)
  | SearchFiles (profile : obj) (pattern : string) (accessToken : token)
  | Octokit (s : shape) (path : string) (params : obj) (accessToken : token)
  | Resume (profile : obj) (accessToken : token) (fetched : list obj)
  | Donate (accessToken : token)
  | Evict (key : string).

Definition step (fuel : nat) (w : World) (c : call) : World :=
  match c with
  | FetchProfile login t => (fetchProfile login t w).2
  | FetchRepos profile t => (fetchReposForProfile fuel profile t w).2
  | FetchFile repo path t => (fetchFileFromRepo repo path t w).2
  | SearchFiles profile pattern t =>
      (searchFilesFromProfile fuel profile pattern t w).2
  | Octokit s path params t => (fetchWithOctokit s path params t w).2
  | Resume profile t fetched => (saveRepos profile t fetched w).2
  | Donate t => (donateToken t w).2
  | Evict k => mkWorld (delete k (cache w)) (trace w)
  end.

Definition run (fuel : nat) (calls : list call) (w : World) : World :=
  foldl (step fuel) w calls.

End Github.

(** The process at start-up: nothing cached, nothing requested. *)
Definition boot : World := mkWorld ∅ [].

(** ** Vocabulary of the properties *)

(** What is left when no usable token was found before the guest token. *)
Definition guest_or_anonymous (env : Env) : credentials :=
  if supplied (GITHUB_GUEST_TOKEN env) then GITHUB_GUEST_TOKEN env else None.

(** The page requests of one listing, in order: pages [page], [page + 1],
    ..., one per resolved credential. *)
Fixpoint page_requests (path : string) (params : obj) (page : Z)
    (auths : list credentials) : list event :=
  match auths with
  | [] => []
  | auth :: auths =>
      Request path (page_params params page) auth
        :: page_requests path params (page + 1)%Z auths
  end.

(** What [fetchReposForProfile] keeps of the records fetched: the ones
    whose [fork] is [false], compacted. *)
Definition listed (fetched : list obj) : list obj :=
  map compactRepo (filter (fun repo => not_fork repo) fetched).

(** The public subset of a list of compact repositories. *)
Definition public_of (repos : list obj) : list obj :=
  filter (fun repo => not_private repo) repos.

(** Whether a login contains no underscore. *)
Fixpoint underscore_free (s : string) : bool :=
  match s with
  | EmptyString => true
  | String c s => negb (Ascii.eqb c "_"%char) && underscore_free s
  end.

(** The entries the module can store under a key, given the world the
    storing call started from. *)
Inductive written (w : World) : string → entry → Prop :=
  | written_profile (login : string) (o : obj) :
      written w ("profile_" +:+ login) (Profile o)
  | written_private (profile : obj) (t : token) (fetched : list obj) :
      written w (privateCacheKey profile t) (Repos (listed fetched))
  | written_public (profile : obj) (fetched : list obj) :
      written w (publicCacheKey profile) (Repos (public_of (listed fetched)))
  | written_pool (t : token) :
      t ∉ donatedTokens w →
      written w "donatedTokens" (Tokens (donatedTokens w ++ [t])).

(** What holds of every entry of the cache, by the key it sits under: a
    repository list holds compact records only (no [fork] property is
    left on them); under the public key of a login without underscore it
    holds public repositories only; a token list has no duplicates; and
    the pool key holds nothing but a token list. *)
Definition sound_entry (k : string) (e : entry) : Prop :=
  match e with
  | Profile _ => True
  | Repos l =>
      Forall (fun r : obj => r !! "fork" = None) l ∧
      ∀ login, underscore_free login = true →
               k = "profile_repos_" +:+ login →
               Forall (fun r : obj => get "private" r = VBool false) l
  | Tokens l => NoDup l
  end ∧
  (k = "donatedTokens" → ∃ l, e = Tokens l).

Definition coherent (w : World) : Prop :=
  ∀ k e, cache w !! k = Some e → sound_entry k e.

(** What a call writes to the cache when it runs from [w]: the key and
    the entry.  [fetchProfile] writes a profile record under its login's
    key; a [fetchReposForProfile] that misses the cache and whose loop
    returns the records [fetched] writes the two lists made of them, and
    so does the end of a suspended one; [donateToken] writes the pool
    with the new token appended.  Nothing else is ever written. *)
Definition writes (env : Env) (fuel : nat) (w : World) (c : call)
    (k : string) (e : entry) : Prop :=
  match c with
  | FetchProfile login t => k = "profile_" +:+ login ∧ ∃ o, e = Profile o
  | FetchRepos profile t =>
      cached_repos profile t w = None ∧
      ∃ fetched w1,
        paginate env fuel (listing profile).1 (listing profile).2 t 1 [] w
        = (Ret fetched, w1) ∧
        (k = privateCacheKey profile t ∧ e = Repos (listed fetched) ∨
         k = publicCacheKey profile ∧ e = Repos (public_of (listed fetched)))
  | Resume profile t fetched =>
      k = privateCacheKey profile t ∧ e = Repos (listed fetched) ∨
      k = publicCacheKey profile ∧ e = Repos (public_of (listed fetched))
  | Donate t =>
      k = "donatedTokens" ∧ e = Tokens (donatedTokens w ++ [t])
  | FetchFile _ _ _ | SearchFiles _ _ _ | Octokit _ _ _ _ | Evict _ => False
  end.

(** What can sit under the public key of [login], and what a listing of
    [login] without a token can return: a list of repositories whose
    [private] is [false]; or, because [fetchProfile] builds its key
    [profile_<login>] by concatenation too, the profile record that a
    [fetchProfile] of the login [repos_<login>] stored. *)
Definition public_only (calls : list call) (login : string) (e : entry)
    : Prop :=
  (∃ l, e = Repos l ∧
        Forall (fun r : obj => get "private" r = VBool false) l) ∨
  (∃ o t, e = Profile o ∧ FetchProfile ("repos_" +:+ login) t ∈ calls).

(** A record the provider sent: there is a request in the trace that the
    provider, asked for a page, answers with a page that has the
    record. *)
Definition answered (env : Env) (w : World) (r : obj) : Prop :=
  ∃ (h : list event) (path : string) (params : obj) (auth : credentials)
    (rest : list event) (page : list obj),
    trace w = h ++ Request path params auth :: rest ∧
    octokit env h Many path params auth = Ok page ∧
    r ∈ page.

(** A record that a suspended listing had fetched when it completed. *)
Definition resumed (calls : list call) (r : obj) : Prop :=
  ∃ profile t fetched, Resume profile t fetched ∈ calls ∧ r ∈ fetched.

(** A list free of forks: every entry is the compaction of a record the
    module was given with [fork] [false], and carries no [fork] of its
    own. *)
Definition non_forks (env : Env) (calls : list call) (w : World)
    (l : list obj) : Prop :=
  Forall
    (fun x : obj =>
       get "fork" x ≠ VBool true ∧
       ∃ r, (answered env w r ∨ resumed calls r) ∧
            get "fork" r = VBool false ∧ x = compactRepo r)
    l.

(** ** Scenarios *)

Module Scenario.

(** The profile and the repositories of the specification's example: two
    repositories that are not forks, one of them private, and one fork. *)
Definition octocat : obj :=
  {[ "login" := VStr "octocat"; "type" := VStr "User"; "id" := VNum 583231 ]}.

Definition owner : value :=
  VObj {[ "login" := VStr "octocat"; "id" := VNum 583231 ]}.

Definition hello : obj :=
  {[ "id" := VNum 1; "name" := VStr "hello"; "owner" := owner;
     "full_name" := VStr "octocat/hello"; "default_branch" := VStr "master";
     "private" := VBool false; "fork" := VBool false;
     "language" := VStr "JavaScript"; "stargazers_count" := VNum 12 ]}.

Definition vault : obj :=
  {[ "id" := VNum 2; "name" := VStr "vault"; "owner" := owner;
     "full_name" := VStr "octocat/vault"; "default_branch" := VStr "master";
     "private" := VBool true; "fork" := VBool false;
     "language" := VNull ]}.

Definition spoon : obj :=
  {[ "id" := VNum 3; "name" := VStr "spoon"; "owner" := owner;
     "full_name" := VStr "octocat/spoon"; "default_branch" := VStr "master";
     "private" := VBool false; "fork" := VBool true ]}.

(** A record on which the provider sent [fork: null]. *)
Definition orphan : obj :=
  {[ "id" := VNum 4; "name" := VStr "orphan"; "owner" := owner;
     "full_name" := VStr "octocat/orphan"; "default_branch" := VStr "main";
     "private" := VBool false; "fork" := VNull ]}.

(** A runtime whose provider answers every listing with the one short
    page [repos], knows no user and no organization, serves the file
    content [aGVsbG8=], and whose raw-content host answers 404. *)
Definition provider (repos : list obj) : Env :=
  mkEnv (Some "guest-token")
    (fun _ => mkSample 6004799503160661 54)
    (fun _ s path _ _ =>
       match s return result (payload s) with
       | Single =>
           if bool_decide (path = "repos.getContent")
           then Ok {[ "content" := VStr "aGVsbG8=";
                      "encoding" := VStr "base64" ]}
           else Err (VNum 404)
       | Many => Ok repos
       end)
    (fun _ _ => Ok (mkResponse 404 "404: Not Found"))
    (fun v => match v with
              | VStr s =>
                  Some (if bool_decide (s = "aGVsbG8=") then "hello" else "")
              | _ => None
              end).


(** A world in which two tokens have been donated. *)
Definition donated : World :=
  mkWorld
    {[ "donatedTokens" := Tokens [Some "alice-token"; Some "bob-token"] ]}
    [].

(** An organization, and a user whose login is the organization's login,
    an underscore and a token. *)
Definition acme : obj :=
  {[ "login" := VStr "acme"; "type" := VStr "Organization" ]}.

Definition lookalike : obj :=
  {[ "login" := VStr "acme_t0k3n"; "type" := VStr "User" ]}.

(** A runtime scripted by the answers of the provider: [single] for the
    operations that return one record, [many] for the listings, by the
    parameters of the request. *)
Definition scripted (single : string -> obj -> result obj)
    (many : obj -> result (list obj)) : Env :=
  mkEnv (Some "guest-token")
    (fun _ => mkSample 6004799503160661 54)
    (fun _ s path params _ =>
       match s return result (payload s) with
       | Single => single path params
       | Many => many params
       end)
    (fun _ _ => Err VNull)
    (fun _ => None).

(** A provider that knows [octocat] as a user. *)
Definition directory : Env :=
  scripted
    (fun path _ =>
       if bool_decide (path = "users.getForUser") then Ok octocat
       else Err (VNum 404))
    (fun _ => Ok []).

(** A provider that answers the user lookup of an organization with the
    organization's record, and knows no organization. *)
Definition quirky : Env :=
  scripted
    (fun path _ =>
       if bool_decide (path = "users.getForUser") then Ok acme
       else Err (VNum 404))
    (fun _ => Ok []).

(** A provider whose every page is full. *)
Definition endless : Env :=
  scripted (fun _ _ => Err (VNum 404)) (fun _ => Ok (replicate 100 ∅)).

(** A provider that serves one full page and rejects the second request. *)
Definition flaky : Env :=
  scripted (fun _ _ => Err (VNum 404))
    (fun params =>
       match get "page" params with
       | VNum 1 => Ok (replicate 100 ∅)
       | _ => Err (VStr "rate limit exceeded")
       end).

(** A provider whose code search finds one file, in the fork [spoon]. *)
Definition searcher : Env :=
  scripted
    (fun path _ =>
       if bool_decide (path = "search.code")
       then Ok {[ "total_count" := VNum 1;
                  "items" :=
                    VArr [VObj {[ "repository" := VObj spoon;
                                  "path" := VStr "package.json" ]}] ]}
       else Err (VNum 404))
    (fun _ => Ok []).

End Scenario.

(** ** Compaction *)

Lemma lookup_pick (ks : list string) (o : obj) (k : string) :
  pick ks o !! k = if decide (k ∈ ks) then o !! k else None.
Proof.
  unfold pick. destruct (decide (k ∈ ks)) as [Hin | Hout].
  - destruct (o !! k) as [v |] eqn:Hk.
    + apply map_lookup_filter_Some. by split.
    + apply map_lookup_filter_None. left. done.
  - apply map_lookup_filter_None. right. intros v _ Hin. by apply Hout.
Qed.

Lemma compactRepo_lookup_owner (r : obj) :
  compactRepo r !! "owner" =
    Some (VObj (pick_value ["login"] (get "owner" r))).
Proof.
  unfold compactRepo. rewrite lookup_insert_eq. unfold get at 1.
  rewrite lookup_pick. by rewrite decide_True by set_solver.
Qed.

Lemma compactRepo_lookup_kept (r : obj) (k : string) :
  k ∈ ["id"; "name"; "full_name"; "default_branch"; "private"; "language"] →
  compactRepo r !! k = r !! k.
Proof.
  intros Hk. unfold compactRepo.
  assert (k ≠ "owner") as Hne.
  { intros ->. revert Hk. rewrite !elem_of_cons, elem_of_nil. naive_solver. }
  rewrite lookup_insert_ne by done.
  rewrite lookup_pick. rewrite decide_True; [done |].
  revert Hk. rewrite !elem_of_cons, !elem_of_nil. naive_solver.
Qed.

Lemma compactRepo_lookup_dropped (r : obj) (k : string) :
  k ∉ ["id"; "name"; "owner"; "full_name"; "default_branch"; "private";
       "language"] →
  compactRepo r !! k = None.
Proof.
  intros Hk. unfold compactRepo.
  assert (k ≠ "owner") as Hne.
  { intros ->. apply Hk. rewrite !elem_of_cons. naive_solver. }
  rewrite lookup_insert_ne by done.
  rewrite lookup_pick. by rewrite decide_False.
Qed.

Lemma compactRepo_no_fork (r : obj) : compactRepo r !! "fork" = None.
Proof.
  apply compactRepo_lookup_dropped.
  rewrite !elem_of_cons, elem_of_nil. naive_solver.
Qed.

(** C2, as the code has it: compaction copies and never creates.  The
    compact record always has an [owner] record; that record has a [login]
    exactly when the provider's [owner] is a record with a [login], with
    the same value; and [private] is present exactly when the provider's
    record has it, with the same value, so it is a boolean exactly when the
    provider sent a boolean. *)
Theorem compactRepo_copies_fields (r : obj) :
  (∃ o : obj,
     compactRepo r !! "owner" = Some (VObj o) ∧
     o !! "login" =
       match r !! "owner" with
       | Some (VObj o') => o' !! "login"
       | _ => None
       end) ∧
  compactRepo r !! "private" = r !! "private".
Proof.
  split.
  - eexists. split; [apply compactRepo_lookup_owner |].
    unfold get. destruct (r !! "owner") as [[] |]; simpl; try done.
    rewrite lookup_pick. by rewrite decide_True by set_solver.
  - apply compactRepo_lookup_kept. rewrite !elem_of_cons. naive_solver.
Qed.

(** C2 as stated fails: a provider record without [private] and without
    [owner] compacts to a record whose [private] is absent and whose
    [owner] has no [login]. *)
Lemma compactRepo_creates_nothing :
  let r : obj := {[ "name" := VStr "dotfiles"; "fork" := VBool false ]} in
  ¬ (∃ b : bool, compactRepo r !! "private" = Some (VBool b)) ∧
  ¬ (∃ (o : obj) (login : value),
       compactRepo r !! "owner" = Some (VObj o) ∧ o !! "login" = Some login).
Proof.
  split.
  - intros [b Hb]. vm_compute in Hb. discriminate.
  - intros (o & login & Ho & Hl). vm_compute in Ho.
    injection Ho as <-. vm_compute in Hl. discriminate.
Qed.

(** ** Credential resolution *)

Lemma den_pos (u : sample) : (0 < den u)%N.
Proof. unfold den. apply N.neq_0_lt_0, N.pow_nonzero. done. Qed.

Lemma mant_lt_den (u : sample) : (mant u < den u)%N.
Proof.
  unfold mant, den.
  eapply N.lt_le_trans; [apply N.mod_lt, N.pow_nonzero; done |].
  apply N.pow_le_mono_r; [done | apply N.le_min_l].
Qed.

Lemma mant_lt_53 (u : sample) : (mant u < 2 ^ 53)%N.
Proof.
  unfold mant.
  eapply N.lt_le_trans; [apply N.mod_lt, N.pow_nonzero; done |].
  apply N.pow_le_mono_r; [done | apply N.le_min_r].
Qed.

(** A double below 1 is at least [2 ^ -53] below it. *)
Lemma mant_gap (u : sample) : (den u ≤ (den u - mant u) * 2 ^ 53)%N.
Proof.
  pose proof (mant_lt_den u) as Hd. pose proof (mant_lt_53 u) as Hm.
  destruct (N.le_gt_cases (expo u) 53) as [Hsmall | Hlarge].
  - assert (den u ≤ 2 ^ 53)%N
      by (unfold den; by apply N.pow_le_mono_r).
    nia.
  - assert (2 ^ 54 ≤ den u)%N as Hbig
      by (unfold den; apply N.pow_le_mono_r; [done | lia]).
    change (2 ^ 54)%N with (2 * 2 ^ 53)%N in Hbig.
    assert (2 ≤ 2 ^ 53)%N by done.
    nia.
Qed.

Lemma floor_times_lt (u : sample) (n : nat) : 0 < n → floor_times u n < n.
Proof.
  intros Hn. unfold floor_times.
  pose proof (den_pos u) as Hd. pose proof (mant_lt_den u) as Hm.
  pose proof (mant_gap u) as Hgap.
  set (k := N.of_nat n). assert (0 < k)%N as Hk by lia.
  set (product := (mant u * k)%N).
  pose proof (N.div_mod product (den u) ltac:(lia)) as Hdm.
  pose proof (N.mod_lt product (den u) ltac:(lia)) as Hrest.
  set (whole := (product / den u)%N) in *.
  set (rest := (product mod den u)%N) in *.
  assert (whole < k)%N as Hwhole.
  { apply N.Div0.div_lt_upper_bound. unfold product. nia. }
  assert (N.to_nat k = n) as Hkn by lia.
  destruct (_ <=? _)%N eqn:Hup; [| lia].
  apply N.leb_le in Hup.
  assert (whole + 1 ≠ k)%N; [| lia].
  intros Hlast.
  assert (whole = k - 1)%N as Hw by lia.
  pose proof (N.size_le whole) as Hsize.
  rewrite N.succ_double_spec in Hsize.
  assert (den u - rest = k * (den u - mant u))%N as Hrest'.
  { unfold product in Hdm. nia. }
  rewrite Hrest' in Hup.
  change (2 ^ 54)%N with (2 * 2 ^ 53)%N in Hup.
  assert (2 ^ N.size whole < 2 * k)%N as Hbits by lia.
  assert (0 < den u - mant u)%N by lia.
  set (g := (den u - mant u)%N) in *. set (P := (2 ^ 53)%N) in *.
  set (S := (2 ^ N.size whole)%N) in *.
  assert (2 * k * den u ≤ k * g * (2 * P))%N by nia.
  assert (S * den u < 2 * k * den u)%N by nia.
  lia.
Qed.

(** The index is the whole part of the exact product, or the next whole
    number. *)
Lemma floor_times_whole (u : sample) (n : nat) :
  let whole := (mant u * N.of_nat n / den u)%N in
  N.of_nat (floor_times u n) = whole ∨
  N.of_nat (floor_times u n) = (whole + 1)%N.
Proof.
  intros whole. unfold floor_times. fold whole.
  destruct (_ <=? _)%N; [right | left]; lia.
Qed.

(** The product is a double product: the sample 0.3333333333333333
    times 3 rounds to 1, so of three elements the second is chosen, where
    the exact product, just below 1, has the whole part 0. *)
Example floor_times_rounds :
  let u := mkSample 6004799503160661 54 in
  (mant u * 3 / den u)%N = 0%N ∧ floor_times u 3 = 1 ∧ floor_times u 2 = 0.
Proof. repeat split; reflexivity. Qed.

Lemma getOctokit_supplied (env : Env) (t : token) (w : World) :
  supplied t = true → getOctokit env t w = t.
Proof.
  intros Ht. unfold getOctokit. by repeat (rewrite Ht; simpl).
Qed.

Lemma getOctokit_pool (env : Env) (t : token) (w : World) :
  supplied t = false → donatedTokens w ≠ [] →
  getOctokit env t w =
    let chosen :=
      default None
        (donatedTokens w !!
           floor_times (Math_random env (trace w))
             (length (donatedTokens w))) in
    if supplied chosen then chosen else guest_or_anonymous env.
Proof.
  intros Ht Hpool. unfold getOctokit, guest_or_anonymous. cbv zeta.
  rewrite Ht. simpl.
  rewrite bool_decide_true by (destruct (donatedTokens w); [done | simpl; lia]).
  destruct (supplied (default None _)) eqn:Hc; simpl; [by rewrite Hc | done].
Qed.

Lemma getOctokit_no_pool (env : Env) (t : token) (w : World) :
  supplied t = false → donatedTokens w = [] →
  getOctokit env t w = guest_or_anonymous env.
Proof.
  intros Ht Hpool. unfold getOctokit, guest_or_anonymous. cbv zeta.
  rewrite Ht, Hpool. simpl. by rewrite Ht.
Qed.

(** C3, as the code has it: the precedence of [getOctokit].  A supplied
    token is the credential whatever the pool, the guest token and the
    random source are.  Without one and with a non-empty pool, the element
    at index [Math.floor(Math.random() * length)] is chosen: the index is
    inside the pool, and it is the whole part of the exact product or,
    where the double product rounds up to it, the next whole number.  The
    chosen element is the credential when it is a usable token; when it
    is the empty string or [undefined] the guest step runs as if the pool
    were empty.  With an empty pool the credential is the guest token, or
    none.  The resolver is a total function: it has no failing outcome. *)
Theorem getOctokit_precedence (env : Env) (w : World) (accessToken : token) :
  (supplied accessToken = true →
   ∀ (env' : Env) (w' : World), getOctokit env' accessToken w' = accessToken) ∧
  (supplied accessToken = false → donatedTokens w ≠ [] →
   let u := Math_random env (trace w) in
   let n := length (donatedTokens w) in
   let whole := (mant u * N.of_nat n / den u)%N in
   ∃ chosen : token,
     floor_times u n < n ∧
     donatedTokens w !! floor_times u n = Some chosen ∧
     (N.of_nat (floor_times u n) = whole ∨
      N.of_nat (floor_times u n) = (whole + 1)%N) ∧
     getOctokit env accessToken w =
       if supplied chosen then chosen else guest_or_anonymous env) ∧
  (supplied accessToken = false → donatedTokens w = [] →
   getOctokit env accessToken w = guest_or_anonymous env).
Proof.
  split; [| split].
  - intros Ht env' w'. by apply getOctokit_supplied.
  - intros Ht Hpool u n whole.
    assert (0 < n) as Hn.
    { subst n. destruct (donatedTokens w); [done | simpl; lia]. }
    pose proof (floor_times_lt u n Hn) as Hlt.
    destruct (lookup_lt_is_Some_2 (donatedTokens w) (floor_times u n))
      as [chosen Hc]; [done |].
    exists chosen. split; [done |]. split; [done |].
    split; [apply floor_times_whole |].
    rewrite getOctokit_pool by done. simpl. fold u n. by rewrite Hc.
  - apply getOctokit_no_pool.
Qed.

(** ** Requests *)

Lemma fetchWithOctokit_cache (env : Env) (s : shape) (path : string)
    (params : obj) (t : token) (w : World) :
  cache (fetchWithOctokit env s path params t w).2 = cache w.
Proof. unfold fetchWithOctokit. by destruct (octokit _ _ _ _ _ _). Qed.

Lemma fetchWithOctokit_trace (env : Env) (s : shape) (path : string)
    (params : obj) (t : token) (w : World) :
  trace (fetchWithOctokit env s path params t w).2 =
    trace w ++ [Request path params (getOctokit env t w)].
Proof. unfold fetchWithOctokit. by destruct (octokit _ _ _ _ _ _). Qed.

(** One turn of the pagination loop. *)
Lemma paginate_turn (env : Env) (fuel : nat) (path : string) (params : obj)
    (t : token) (page : Z) (acc : list obj) (w : World) :
  paginate env (S fuel) path params t page acc w =
    match fetchWithOctokit env Many path (page_params params page) t w with
    | (Ret fetched, w') =>
        if bool_decide (length fetched < per_page)
        then (Ret (acc ++ fetched), w')
        else paginate env fuel path params t (page + 1)%Z (acc ++ fetched) w'
    | (Throw e, w') => (Throw e, w')
    | (OutOfFuel, w') => (OutOfFuel, w')
    end.
Proof.
  simpl. unfold mbind, M_bind.
  destruct (fetchWithOctokit _ _ _ _ _ _) as [[fetched | e |] w']; try done.
  by destruct (bool_decide _).
Qed.

Lemma paginate_cache (env : Env) (fuel : nat) (path : string) (params : obj)
    (t : token) (page : Z) (acc : list obj) (w : World) :
  cache (paginate env fuel path params t page acc w).2 = cache w.
Proof.
  revert page acc w. induction fuel as [| fuel IH]; intros page acc w.
  - done.
  - rewrite paginate_turn.
    pose proof (fetchWithOctokit_cache env Many path
                  (page_params params page) t w) as Hc.
    destruct (fetchWithOctokit _ _ _ _ _ _) as [[fetched | e |] w'];
      simpl in Hc; try done.
    destruct (bool_decide _); [done |]. by rewrite IH.
Qed.

Lemma page_requests_length (path : string) (params : obj) (page : Z)
    (auths : list credentials) :
  length (page_requests path params page auths) = length auths.
Proof.
  revert page. induction auths as [| a auths IH]; intros page; simpl;
    [done | by rewrite IH].
Qed.

Lemma paginate_from (env : Env) (path : string) (params : obj) (t : token)
    (pages : list (list obj)) (short : list obj) :
  Forall (fun p => per_page ≤ length p) pages →
  length short < per_page →
  ∀ (fuel : nat) (page : Z) (acc : list obj) (w : World),
    (∀ h auth i p, (pages ++ [short]) !! i = Some p →
       octokit env h Many path (page_params params (page + Z.of_nat i)) auth
       = Ok p) →
    length pages < fuel →
    ∃ (w' : World) (auths : list credentials),
      paginate env fuel path params t page acc w
      = (Ret (acc ++ concat pages ++ short), w') ∧
      cache w' = cache w ∧
      length auths = S (length pages) ∧
      trace w' = trace w ++ page_requests path params page auths.
Proof.
  intros Hfull Hshort. induction Hfull as [| p pages Hp _ IH];
    intros fuel page acc w Hprov Hfuel.
  - destruct fuel as [| fuel]; [simpl in Hfuel; lia |].
    rewrite paginate_turn. unfold fetchWithOctokit.
    pose proof (Hprov (trace w) (getOctokit env t w) 0 short eq_refl) as Hr.
    rewrite Z.add_0_r in Hr. rewrite Hr.
    rewrite bool_decide_true by done.
    eexists _, [getOctokit env t w]. by repeat split.
  - destruct fuel as [| fuel]; [simpl in Hfuel; lia |].
    rewrite paginate_turn. unfold fetchWithOctokit.
    pose proof (Hprov (trace w) (getOctokit env t w) 0 p eq_refl) as Hr.
    rewrite Z.add_0_r in Hr. rewrite Hr.
    rewrite bool_decide_false by lia.
    destruct (IH fuel (page + 1)%Z (acc ++ p)
                (log (Request path (page_params params page)
                        (getOctokit env t w)) w))
      as (w' & auths & Hrun & Hcache & Hlen & Htrace).
    + intros h auth i q Hq.
      replace (page + 1 + Z.of_nat i)%Z with (page + Z.of_nat (S i))%Z by lia.
      by apply Hprov.
    + simpl in Hfuel. lia.
    + exists w', (getOctokit env t w :: auths). split; [| split; [| split]].
      * rewrite Hrun. simpl. by rewrite <- !(assoc_L (++)).
      * done.
      * simpl. by rewrite Hlen.
      * rewrite Htrace. simpl. by rewrite <- (assoc_L (++)).
Qed.


(** The scenario of the specification: pages of 100, 100 and 37 records
    give three requests and 237 records. *)
Corollary paginate_100_100_37 (env : Env) (path : string) (params : obj)
    (t : token) (p1 p2 p3 : list obj) (fuel : nat) (w : World) :
  (∀ h auth,
     octokit env h Many path (page_params params 1) auth = Ok p1 ∧
     octokit env h Many path (page_params params 2) auth = Ok p2 ∧
     octokit env h Many path (page_params params 3) auth = Ok p3) →
  length p1 = 100 → length p2 = 100 → length p3 = 37 → 3 ≤ fuel →
  ∃ (fetched : list obj) (w' : World) (requests : list event),
    paginate env fuel path params t 1 [] w = (Ret fetched, w') ∧
    trace w' = trace w ++ requests ∧
    length requests = 3 ∧ length fetched = 237.
Proof.
  intros Hprov H1 H2 H3 Hfuel.
  destruct (paginate_from env path params t [p1; p2] p3) with
    (fuel := fuel) (page := 1%Z) (acc := @nil obj) (w := w)
    as (w' & auths & Hrun & _ & Hlen & Htrace).
  - repeat constructor; unfold per_page; lia.
  - unfold per_page. lia.
  - intros h auth i p Hp. destruct (Hprov h auth) as (Ha & Hb & Hc).
    destruct i as [| [| [| i]]]; simpl in Hp; try done;
      injection Hp as <-; done.
  - simpl. lia.
  - exists (concat [p1; p2] ++ p3), w', (page_requests path params 1 auths).
    repeat split; try done.
    + by rewrite page_requests_length, Hlen.
    + simpl. rewrite !length_app, H1, H2, H3. simpl. lia.
Qed.

(** ** Profile resolution *)

Lemma fetchProfile_after_user_failure (env : Env) (login : string)
    (accessToken : token) (w : World) (reason : value) :
  let cacheKey := "profile_" +:+ login in
  let asUser :=
    Request "users.getForUser" {[ "username" := VStr login ]}
      (getOctokit env accessToken w) in
  let asOrg :=
    Request "orgs.get" {[ "org" := VStr login ]}
      (getOctokit env accessToken (log asUser w)) in
  cache_get cacheKey w = None →
  octokit env (trace w) Single "users.getForUser"
    {[ "username" := VStr login ]} (getOctokit env accessToken w)
  = Err reason →
  fetchProfile env login accessToken w =
    match octokit env (trace w ++ [asUser]) Single "orgs.get"
            {[ "org" := VStr login ]}
            (getOctokit env accessToken (log asUser w)) with
    | Ok org =>
        (Ret (Some (Profile org)),
         cache_set cacheKey (Profile org) (log asOrg (log asUser w)))
    | Err _ => (Ret None, log asOrg (log asUser w))
    end.
Proof.
  intros cacheKey asUser asOrg Hmiss Huser.
  unfold fetchProfile. fold cacheKey. rewrite Hmiss.
  unfold mbind, M_bind, catch, silentError, fetchWithOctokit.
  rewrite Huser. fold asUser. simpl. fold asOrg.
  by destruct (octokit env (trace w ++ [asUser]) Single "orgs.get" _ _).
Qed.

(** C6: [fetchProfile] on a login that is not cached, when the user lookup
    fails.  The failure is discarded and the organization lookup is
    issued next; the second answer alone decides the result: an
    organization is cached and returned, a second failure gives [null] and
    leaves the cache as it was.  In both cases exactly two requests are
    appended to the trace, [users.getForUser] first, then [orgs.get]. *)
Theorem fetchProfile_user_lookup_fails (env : Env) (login : string)
    (accessToken : token) (w : World) (reason : value) :
  let cacheKey := "profile_" +:+ login in
  let asUser :=
    Request "users.getForUser" {[ "username" := VStr login ]}
      (getOctokit env accessToken w) in
  let asOrg :=
    Request "orgs.get" {[ "org" := VStr login ]}
      (getOctokit env accessToken (log asUser w)) in
  cache_get cacheKey w = None →
  octokit env (trace w) Single "users.getForUser"
    {[ "username" := VStr login ]} (getOctokit env accessToken w)
  = Err reason →
  trace (fetchProfile env login accessToken w).2 = trace w ++ [asUser; asOrg] ∧
  match octokit env (trace w ++ [asUser]) Single "orgs.get"
          {[ "org" := VStr login ]}
          (getOctokit env accessToken (log asUser w)) with
  | Ok org =>
      fetchProfile env login accessToken w
      = (Ret (Some (Profile org)),
         cache_set cacheKey (Profile org) (log asOrg (log asUser w)))
  | Err _ =>
      fetchProfile env login accessToken w
      = (Ret None, mkWorld (cache w) (trace w ++ [asUser; asOrg]))
  end.
Proof.
  intros cacheKey asUser asOrg Hmiss Huser.
  rewrite (fetchProfile_after_user_failure env login accessToken w reason)
    by done.
  fold cacheKey asUser asOrg.
  destruct (octokit env (trace w ++ [asUser]) Single "orgs.get" _ _)
    as [org | reason']; simpl.
  - split; [by rewrite <- (assoc_L (++)) | done].
  - split; [by rewrite <- (assoc_L (++)) |].
    unfold log. simpl. by rewrite <- (assoc_L (++)).
Qed.

(** ** File contents *)

Lemma is_bool_spec (b : bool) (v : value) : is_bool b v = true ↔ v = VBool b.
Proof.
  destruct v as [| | b' | | | |]; simpl; try (split; intros; discriminate).
  destruct b, b'; simpl; split; intros; (done || discriminate).
Qed.

Lemma is_bool_false (b : bool) (v : value) :
  is_bool b v = false ↔ v ≠ VBool b.
Proof.
  rewrite <- is_bool_spec. by destruct (is_bool b v).
Qed.

(** C4: the routing of [fetchFileFromRepo].  A repository without a
    usable default branch, or marked private, is served by the
    authenticated [repos.getContent] operation, whose [content] is decoded
    from base64 to text: that one request is the only one issued, none to
    the raw-content host (and when the record has no [owner] to read the
    login from, the call fails before any request).  Every other
    repository is served by one request to the raw-content host at
    [<host>/<full_name>/<default_branch>/<path>], with no provider request
    issued. *)
Theorem fetchFileFromRepo_routing (env : Env) (repo : obj) (path : string)
    (accessToken : token) (w : World) :
  (truthy (get "default_branch" repo) = false ∨
   get "private" repo = VBool true →
   (∀ login, member (get "owner" repo) "login" = Some login →
      let params : obj :=
        {[ "owner" := login; "repo" := get "name" repo;
           "path" := VStr path ]} in
      let auth := getOctokit env accessToken w in
      fetchFileFromRepo env repo path accessToken w =
        (match octokit env (trace w) Single "repos.getContent" params auth
         with
         | Ok data =>
             match Buffer_base64_utf8 env (get "content" data) with
             | Some decoded => Ret decoded
             | None => Throw TypeError
             end
         | Err reason => Throw (Rejection reason)
         end,
         mkWorld (cache w)
           (trace w ++ [Request "repos.getContent" params auth]))) ∧
   (member (get "owner" repo) "login" = None →
      fetchFileFromRepo env repo path accessToken w = (Throw TypeError, w))) ∧
  (truthy (get "default_branch" repo) = true →
   get "private" repo ≠ VBool true →
   let url :=
     "https://raw.githubusercontent.com" +:+ "/"
       +:+ toStr (get "full_name" repo) +:+ "/"
       +:+ toStr (get "default_branch" repo) +:+ "/" +:+ path in
   ∃ o : outcome string,
     fetchFileFromRepo env repo path accessToken w
     = (o, mkWorld (cache w) (trace w ++ [RawFetch url]))).
Proof.
  split.
  - intros Hauth.
    assert (negb (truthy (get "default_branch" repo))
            || is_bool true (get "private" repo) = true) as Hcond.
    { destruct Hauth as [-> | ->]; [done | apply orb_true_r]. }
    unfold fetchFileFromRepo. rewrite Hcond. split.
    + intros login ->. simpl.
      unfold mbind, M_bind, fetchWithOctokit, getContent.
      destruct (octokit _ _ _ _ _ _) as [data | reason]; [| done].
      by destruct (Buffer_base64_utf8 _ _).
    + by intros ->.
  - intros Hbranch Hpublic url.
    apply is_bool_false in Hpublic.
    unfold fetchFileFromRepo. rewrite Hbranch, Hpublic. simpl.
    unfold mbind, M_bind, raw_fetch. fold url.
    change (baseRawUrl +:+ relativeUrl repo path) with url.
    destruct (fetch env (trace w) url) as [resp | reason]; simpl.
    + destruct (bool_decide _); by eexists.
    + by eexists.
Qed.

(** C5: the public path of [fetchFileFromRepo], once the raw-content host
    has answered.  Status 200 returns the body as text.  Any other status
    fails with the error [Can't fetch <path> from <relative URL>.], which
    names the path and the URL requested, relative to the raw-content
    host.  Either way the request to the raw-content host is the only
    request issued: it is not repeated and the provider is not asked. *)
Theorem fetchFileFromRepo_public_status (env : Env) (repo : obj)
    (path : string) (accessToken : token) (w : World) (answer : response) :
  let relative :=
    "/" +:+ toStr (get "full_name" repo) +:+ "/"
      +:+ toStr (get "default_branch" repo) +:+ "/" +:+ path in
  let url := "https://raw.githubusercontent.com" +:+ relative in
  let w' := mkWorld (cache w) (trace w ++ [RawFetch url]) in
  truthy (get "default_branch" repo) = true →
  get "private" repo ≠ VBool true →
  fetch env (trace w) url = Ok answer →
  (status answer = 200%Z →
   fetchFileFromRepo env repo path accessToken w = (Ret (text answer), w')) ∧
  (status answer ≠ 200%Z →
   fetchFileFromRepo env repo path accessToken w
   = (Throw (Error ("Can't fetch " +:+ path +:+ " from " +:+ relative
                      +:+ ".")), w')).
Proof.
  intros relative url w' Hbranch Hpublic Hanswer.
  apply is_bool_false in Hpublic.
  unfold fetchFileFromRepo. rewrite Hbranch, Hpublic. simpl.
  unfold mbind, M_bind, raw_fetch.
  change (relativeUrl repo path) with relative.
  change (baseRawUrl +:+ relative) with url.
  rewrite Hanswer. split; intros Hstatus.
  - by rewrite bool_decide_true.
  - by rewrite bool_decide_false.
Qed.

(** ** Repository listing *)

Lemma saveRepos_eq (profile : obj) (t : token) (fetched : list obj)
    (w : World) :
  saveRepos profile t fetched w =
    (Ret (Repos (if supplied t then listed fetched
                 else public_of (listed fetched))),
     cache_set (publicCacheKey profile)
       (Repos (public_of (listed fetched)))
       (cache_set (privateCacheKey profile t) (Repos (listed fetched)) w)).
Proof. done. Qed.

Lemma fetchRepos_hit (env : Env) (fuel : nat) (profile : obj) (t : token)
    (w : World) (e : entry) :
  cached_repos profile t w = Some e →
  fetchReposForProfile env fuel profile t w = (Ret e, w).
Proof. intros H. unfold fetchReposForProfile. by rewrite H. Qed.

Lemma fetchRepos_miss (env : Env) (fuel : nat) (profile : obj) (t : token)
    (w : World) :
  cached_repos profile t w = None →
  fetchReposForProfile env fuel profile t w =
    match paginate env fuel (listing profile).1 (listing profile).2 t 1 [] w
    with
    | (Ret fetched, w1) =>
        (Ret (Repos (if supplied t then listed fetched
                     else public_of (listed fetched))),
         cache_set (publicCacheKey profile)
           (Repos (public_of (listed fetched)))
           (cache_set (privateCacheKey profile t)
              (Repos (listed fetched)) w1))
    | (Throw e, w1) => (Throw e, w1)
    | (OutOfFuel, w1) => (OutOfFuel, w1)
    end.
Proof.
  intros H. unfold fetchReposForProfile. rewrite H.
  destruct (listing profile) as [path params]. simpl.
  unfold mbind, M_bind.
  by destruct (paginate _ _ _ _ _ _ _ _) as [[fetched | e |] w1].
Qed.

Lemma cached_repos_supplied (profile : obj) (t : token) (w : World) :
  supplied t = true →
  cached_repos profile t w = cache w !! privateCacheKey profile t.
Proof.
  intros Ht. unfold cached_repos, cache_has, cache_get. rewrite Ht. simpl.
  case_bool_decide as Hs; [done |].
  destruct (cache w !! _); [| done]. destruct Hs. by eexists.
Qed.

Lemma cached_repos_anonymous (profile : obj) (t : token) (w : World) :
  supplied t = false →
  cached_repos profile t w = cache w !! publicCacheKey profile.
Proof.
  intros Ht. unfold cached_repos, cache_has, cache_get. rewrite Ht. simpl.
  case_bool_decide as Hs; [done |].
  destruct (cache w !! _); [| done]. destruct Hs. by eexists.
Qed.

(** *** Cache keys *)

Lemma underscore_free_app (s1 s2 : string) :
  underscore_free (s1 +:+ s2) = underscore_free s1 && underscore_free s2.
Proof.
  induction s1 as [| c s1 IH]; simpl; [done |].
  by rewrite IH, andb_assoc.
Qed.

Lemma public_key_not_private (login login' : string) (t : token) :
  underscore_free login = true →
  "profile_repos_" +:+ login
  ≠ "profile_repos_" +:+ login' +:+ "_" +:+ token_text t.
Proof.
  intros Hfree Heq. apply (inj (String.app _)) in Heq. subst login.
  rewrite underscore_free_app in Hfree. simpl in Hfree.
  by rewrite andb_false_r in Hfree.
Qed.

Lemma string_length_app (s1 s2 : string) :
  String.length (s1 +:+ s2) = String.length s1 + String.length s2.
Proof. induction s1 as [| c s1 IH]; simpl; [done | by rewrite IH]. Qed.

Lemma own_keys_differ (profile : obj) (t : token) :
  publicCacheKey profile ≠ privateCacheKey profile t.
Proof.
  unfold publicCacheKey, privateCacheKey. intros Heq.
  apply (inj (String.app _)) in Heq.
  apply (f_equal String.length) in Heq.
  rewrite !string_length_app in Heq. simpl in Heq. lia.
Qed.

(** *** What the loops request *)

Lemma paginate_trace (env : Env) (fuel : nat) (path : string) (params : obj)
    (t : token) (page : Z) (acc : list obj) (w : World) :
  ∃ auths,
    trace (paginate env fuel path params t page acc w).2
    = trace w ++ page_requests path params page auths ∧
    length auths ≤ fuel.
Proof.
  revert page acc w. induction fuel as [| fuel IH]; intros page acc w.
  - exists []. simpl. split; [by rewrite app_nil_r | done].
  - rewrite paginate_turn. unfold fetchWithOctokit.
    destruct (octokit env (trace w) Many path _ _) as [fetched | reason].
    + destruct (bool_decide _).
      * exists [getOctokit env t w]. simpl. split; [done | lia].
      * destruct (IH (page + 1)%Z (acc ++ fetched)
                    (log (Request path (page_params params page)
                            (getOctokit env t w)) w))
          as (auths & Htrace & Hlen).
        exists (getOctokit env t w :: auths). rewrite Htrace. simpl.
        split; [by rewrite <- (assoc_L (++)) | lia].
    + exists [getOctokit env t w]. simpl. split; [done | lia].
Qed.

Lemma search_pages_trace (env : Env) (fuel : nat) (params : obj) (t : token)
    (page : Z) (files : list file) (w : World) :
  ∃ auths,
    trace (search_pages env fuel params t page files w).2
    = trace w ++ page_requests "search.code" params page auths ∧
    length auths ≤ fuel.
Proof.
  revert page files w. induction fuel as [| fuel IH]; intros page files w.
  - exists []. simpl. split; [by rewrite app_nil_r | done].
  - simpl. unfold mbind, M_bind, fetchWithOctokit.
    destruct (octokit env (trace w) Single "search.code" _ _)
      as [found | reason].
    + destruct (file_references _) as [searchFiles |].
      * destruct (bool_decide _).
        -- exists [getOctokit env t w]. simpl. split; [done | lia].
        -- destruct (IH (page + 1)%Z (files ++ searchFiles)
                      (log (Request "search.code" (page_params params page)
                              (getOctokit env t w)) w))
             as (auths & Htrace & Hlen).
           exists (getOctokit env t w :: auths). rewrite Htrace. simpl.
           split; [by rewrite <- (assoc_L (++)) | lia].
      * exists [getOctokit env t w]. simpl. split; [done | lia].
    + exists [getOctokit env t w]. simpl. split; [done | lia].
Qed.

(** *** What a step writes to the cache *)

Lemma fetchProfile_cache (env : Env) (login : string) (t : token)
    (w : World) :
  cache (fetchProfile env login t w).2 = cache w ∨
  ∃ o, cache (fetchProfile env login t w).2
       = <["profile_" +:+ login := Profile o]> (cache w).
Proof.
  unfold fetchProfile. destruct (cache_get _ w); [by left |].
  unfold mbind, M_bind, catch, silentError.
  pose proof (fetchWithOctokit_cache env Single "users.getForUser"
                {[ "username" := VStr login ]} t w) as Hc1.
  destruct (fetchWithOctokit env Single "users.getForUser" _ _ _)
    as [[user | e |] w1]; simpl in Hc1; [| | by left].
  - destruct (as_user (Some user)) as [u |].
    + right. exists u. simpl. by rewrite Hc1.
    + pose proof (fetchWithOctokit_cache env Single "orgs.get"
                    {[ "org" := VStr login ]} t w1) as Hc2.
      destruct (fetchWithOctokit env Single "orgs.get" _ _ _)
        as [[org | e |] w2]; simpl in *; [| left; congruence..].
      right. exists org. by rewrite Hc2, Hc1.
  - simpl.
    pose proof (fetchWithOctokit_cache env Single "orgs.get"
                  {[ "org" := VStr login ]} t w1) as Hc2.
    destruct (fetchWithOctokit env Single "orgs.get" _ _ _)
      as [[org | e' |] w2]; simpl in *; [| left; congruence..].
    right. exists org. by rewrite Hc2, Hc1.
Qed.

Lemma fetchFile_cache (env : Env) (repo : obj) (path : string) (t : token)
    (w : World) :
  cache (fetchFileFromRepo env repo path t w).2 = cache w.
Proof.
  unfold fetchFileFromRepo. destruct (_ || _).
  - destruct (member _ _); [| done]. unfold mbind, M_bind.
    pose proof (fetchWithOctokit_cache env Single "repos.getContent"
      {[ "owner" := v; "repo" := get "name" repo; "path" := VStr path ]}
      t w) as Hc.
    destruct (fetchWithOctokit _ _ _ _ _ _) as [[data | e |] w1];
      simpl in *; try done.
    unfold getContent. by destruct (Buffer_base64_utf8 _ _).
  - unfold mbind, M_bind, raw_fetch.
    destruct (fetch _ _ _) as [r | reason]; simpl; [| done].
    by destruct (bool_decide _).
Qed.

Lemma search_pages_cache (env : Env) (fuel : nat) (params : obj) (t : token)
    (page : Z) (files : list file) (w : World) :
  cache (search_pages env fuel params t page files w).2 = cache w.
Proof.
  revert page files w. induction fuel as [| fuel IH]; intros page files w.
  - done.
  - simpl. unfold mbind, M_bind.
    pose proof (fetchWithOctokit_cache env Single "search.code"
                  (page_params params page) t w) as Hc.
    destruct (fetchWithOctokit _ _ _ _ _ _) as [[found | e |] w'];
      simpl in Hc; try done.
    destruct (file_references _) as [searchFiles |]; [| done].
    destruct (bool_decide _); [done |]. by rewrite IH.
Qed.

Lemma fetchRepos_cache (env : Env) (fuel : nat) (profile : obj) (t : token)
    (w : World) :
  cache (fetchReposForProfile env fuel profile t w).2 = cache w ∨
  ∃ fetched,
    cache (fetchReposForProfile env fuel profile t w).2
    = <[publicCacheKey profile := Repos (public_of (listed fetched))]>
        (<[privateCacheKey profile t := Repos (listed fetched)]> (cache w)).
Proof.
  destruct (cached_repos profile t w) as [e |] eqn:Hc.
  - left. by rewrite (fetchRepos_hit _ _ _ _ _ _ Hc).
  - rewrite (fetchRepos_miss _ _ _ _ _ Hc).
    pose proof (paginate_cache env fuel (listing profile).1
                  (listing profile).2 t 1 [] w) as Hp.
    destruct (paginate _ _ _ _ _ _ _ _) as [[fetched | e |] w1];
      simpl in *; [| by left..].
    right. exists fetched. by rewrite Hp.
Qed.

Lemma step_lookup (env : Env) (fuel : nat) (w : World) (c : call)
    (k : string) :
  cache (step env fuel w c) !! k = cache w !! k ∨
  cache (step env fuel w c) !! k = None ∨
  ∃ e, cache (step env fuel w c) !! k = Some e ∧ written w k e.
Proof.
  destruct c as [login t | profile t | repo path t | profile pattern t
                 | s path params t | profile t fetched | t | key];
    cbn [step cache].
  - destruct (fetchProfile_cache env login t w) as [-> | [o ->]]; [by left |].
    destruct (decide ("profile_" +:+ login = k)) as [<- | Hne].
    + right; right. eexists. rewrite lookup_insert_eq. split; [done |].
      constructor.
    + left. by rewrite lookup_insert_ne.
  - destruct (fetchRepos_cache env fuel profile t w) as [-> | [fetched ->]];
      [by left |].
    destruct (decide (publicCacheKey profile = k)) as [<- | Hpub].
    { right; right. eexists. rewrite lookup_insert_eq. split; [done |].
      constructor. }
    rewrite lookup_insert_ne by done.
    destruct (decide (privateCacheKey profile t = k)) as [<- | Hpriv].
    { right; right. eexists. rewrite lookup_insert_eq. split; [done |].
      constructor. }
    left. by rewrite lookup_insert_ne.
  - left. by rewrite fetchFile_cache.
  - left. unfold searchFilesFromProfile. by rewrite search_pages_cache.
  - left. by rewrite fetchWithOctokit_cache.
  - rewrite saveRepos_eq. unfold cache_set. cbn [snd cache].
    destruct (decide (publicCacheKey profile = k)) as [<- | Hpub].
    { right; right. eexists. rewrite lookup_insert_eq. split; [done |].
      constructor. }
    rewrite lookup_insert_ne by done.
    destruct (decide (privateCacheKey profile t = k)) as [<- | Hpriv].
    { right; right. eexists. rewrite lookup_insert_eq. split; [done |].
      constructor. }
    left. by rewrite lookup_insert_ne.
  - unfold donateToken. case_bool_decide as Hnew; [| by left]. simpl.
    destruct (decide ("donatedTokens" = k)) as [<- | Hne].
    + right; right. eexists. rewrite lookup_insert_eq. split; [done |].
      by constructor.
    + left. by rewrite lookup_insert_ne.
  - destruct (decide (key = k)) as [<- | Hne].
    + right; left. apply lookup_delete_eq.
    + left. by apply lookup_delete_ne.
Qed.

(** *** The invariant of the cache *)

Lemma boot_coherent : coherent boot.
Proof. intros k e. unfold boot. simpl. by rewrite lookup_empty. Qed.

Lemma listed_compact (fetched : list obj) :
  Forall (fun r : obj => r !! "fork" = None) (listed fetched).
Proof.
  unfold listed. apply Forall_forall. intros x Hx.
  apply list_elem_of_fmap in Hx as (r & -> & _). apply compactRepo_no_fork.
Qed.

Lemma public_of_public (repos : list obj) :
  Forall (fun r : obj => get "private" r = VBool false) (public_of repos).
Proof.
  unfold public_of. apply Forall_forall. intros x Hx.
  apply list_elem_of_filter in Hx as [Hx _].
  apply is_bool_spec. unfold not_private in Hx. by apply Is_true_true.
Qed.

Lemma public_of_sublist (P : obj → Prop) (repos : list obj) :
  Forall P repos → Forall P (public_of repos).
Proof.
  rewrite !Forall_forall. intros H x Hx. apply H.
  unfold public_of in Hx. by apply list_elem_of_filter in Hx as [_ Hx].
Qed.

Lemma pool_coherent (w : World) : coherent w → NoDup (donatedTokens w).
Proof.
  intros Hw. unfold donatedTokens, cache_get.
  destruct (cache w !! "donatedTokens") as [e |] eqn:He; [| constructor].
  destruct (Hw _ _ He) as [Hs _]. destruct e; (done || constructor).
Qed.

Lemma written_sound (w : World) (k : string) (e : entry) :
  coherent w → written w k e → sound_entry k e.
Proof.
  intros Hw [login o | profile t fetched | profile fetched | t Hnew].
  - split; [done |]. simpl. discriminate.
  - split; [| unfold privateCacheKey; simpl; discriminate].
    split; [apply listed_compact |].
    intros login Hfree Hkey. unfold privateCacheKey in Hkey.
    symmetry in Hkey. by apply public_key_not_private in Hkey.
  - split; [| unfold publicCacheKey; simpl; discriminate].
    split; [apply public_of_sublist, listed_compact |].
    intros _ _ _. apply public_of_public.
  - split; [| by eexists]. simpl.
    apply NoDup_app. split; [by apply pool_coherent |].
    split; [| apply NoDup_singleton].
    intros x Hx Hx'. apply list_elem_of_singleton in Hx'. by subst x.
Qed.

Lemma step_coherent (env : Env) (fuel : nat) (w : World) (c : call) :
  coherent w → coherent (step env fuel w c).
Proof.
  intros Hw k e He.
  destruct (step_lookup env fuel w c k) as [Hsame | [Hnone | (e' & He' & Hwr)]].
  - apply Hw. by rewrite <- Hsame.
  - congruence.
  - rewrite He in He'. injection He' as <-. by apply (written_sound w).
Qed.

Lemma run_coherent (env : Env) (fuel : nat) (calls : list call) (w : World) :
  coherent w → coherent (run env fuel calls w).
Proof.
  revert w. induction calls as [| c calls IH]; intros w Hw; [done |].
  simpl. apply IH. by apply step_coherent.
Qed.

(** The pool key holds a token list or nothing, as [donatedTokens]
    assumes. *)
Lemma pool_key_typed (env : Env) (fuel : nat) (calls : list call) :
  let w := run env fuel calls boot in
  cache w !! "donatedTokens" = None ∨
  cache w !! "donatedTokens" = Some (Tokens (donatedTokens w)).
Proof.
  intros w. destruct (cache w !! "donatedTokens") as [e |] eqn:He;
    [right | by left].
  destruct (run_coherent env fuel calls boot boot_coherent _ _ He)
    as [_ [l ->]]; [done |].
  unfold donatedTokens, cache_get. fold w. by rewrite He.
Qed.

(** *** Where an entry comes from *)

Lemma fetchRepos_writes (env : Env) (fuel : nat) (profile : obj) (t : token)
    (w : World) :
  cache (fetchReposForProfile env fuel profile t w).2 = cache w ∨
  cached_repos profile t w = None ∧
  ∃ fetched w1,
    paginate env fuel (listing profile).1 (listing profile).2 t 1 [] w
    = (Ret fetched, w1) ∧
    cache (fetchReposForProfile env fuel profile t w).2
    = <[publicCacheKey profile := Repos (public_of (listed fetched))]>
        (<[privateCacheKey profile t := Repos (listed fetched)]> (cache w)).
Proof.
  destruct (cached_repos profile t w) as [e |] eqn:Hc.
  - left. by rewrite (fetchRepos_hit _ _ _ _ _ _ Hc).
  - rewrite (fetchRepos_miss _ _ _ _ _ Hc).
    pose proof (paginate_cache env fuel (listing profile).1
                  (listing profile).2 t 1 [] w) as Hp.
    destruct (paginate _ _ _ _ _ _ _ _) as [[fetched | e |] w1];
      simpl in *; [| by left..].
    right. split; [done |]. exists fetched, w1. by rewrite Hp.
Qed.

(** An entry of the cache after a call was there before the call, or the
    call wrote it. *)
Lemma step_writes (env : Env) (fuel : nat) (w : World) (c : call)
    (k : string) (e : entry) :
  cache (step env fuel w c) !! k = Some e →
  cache w !! k = Some e ∨ writes env fuel w c k e.
Proof.
  destruct c as [login t | profile t | repo path t | profile pattern t
                 | s path params t | profile t fetched | t | key];
    cbn [step cache writes].
  - destruct (fetchProfile_cache env login t w) as [-> | [o ->]]; [by left |].
    destruct (decide ("profile_" +:+ login = k)) as [<- | Hne].
    + rewrite lookup_insert_eq. intros [= <-]. right. by eauto.
    + rewrite lookup_insert_ne by done. by left.
  - destruct (fetchRepos_writes env fuel profile t w)
      as [-> | (Hmiss & fetched & w1 & Hp & ->)]; [by left |].
    destruct (decide (publicCacheKey profile = k)) as [<- | Hpub].
    { rewrite lookup_insert_eq. intros [= <-]. right.
      split; [done |]. exists fetched, w1. by eauto. }
    rewrite lookup_insert_ne by done.
    destruct (decide (privateCacheKey profile t = k)) as [<- | Hpriv].
    { rewrite lookup_insert_eq. intros [= <-]. right.
      split; [done |]. exists fetched, w1. by eauto. }
    rewrite lookup_insert_ne by done. by left.
  - rewrite fetchFile_cache. by left.
  - unfold searchFilesFromProfile. rewrite search_pages_cache. by left.
  - rewrite fetchWithOctokit_cache. by left.
  - rewrite saveRepos_eq. unfold cache_set. cbn [snd cache].
    destruct (decide (publicCacheKey profile = k)) as [<- | Hpub].
    { rewrite lookup_insert_eq. intros [= <-]. by eauto. }
    rewrite lookup_insert_ne by done.
    destruct (decide (privateCacheKey profile t = k)) as [<- | Hpriv].
    { rewrite lookup_insert_eq. intros [= <-]. by eauto. }
    rewrite lookup_insert_ne by done. by left.
  - unfold donateToken. case_bool_decide as Hnew; [| by left]. simpl.
    destruct (decide ("donatedTokens" = k)) as [<- | Hne].
    + rewrite lookup_insert_eq. intros [= <-]. by right.
    + rewrite lookup_insert_ne by done. by left.
  - intros [_ Hk]%lookup_delete_Some. by left.
Qed.

(** An entry of the cache after a run was there before the run, or one
    of the calls of the run wrote it. *)
Lemma run_writes (env : Env) (fuel : nat) (calls : list call) (w : World)
    (k : string) (e : entry) :
  cache (run env fuel calls w) !! k = Some e →
  cache w !! k = Some e ∨
  ∃ before c after,
    calls = before ++ c :: after ∧
    writes env fuel (run env fuel before w) c k e.
Proof.
  induction calls as [| c calls IH] using rev_ind; [by left |].
  unfold run in *. rewrite foldl_snoc. intros He.
  destruct (step_writes _ _ _ _ _ _ He) as [Hold | Hnew].
  - destruct (IH Hold) as [Hw | (before & c' & after & -> & Hwr)];
      [by left |].
    right. exists before, c', (after ++ [c]).
    split; [by rewrite <- (assoc_L (++)) | done].
  - right. by exists calls, c, [].
Qed.

Lemma boot_empty (k : string) : cache boot !! k = None.
Proof. apply lookup_empty. Qed.

(** A profile record sits under the key of a login that [fetchProfile]
    was called with. *)
Lemma run_profile_origin (env : Env) (fuel : nat) (calls : list call)
    (k : string) (o : obj) :
  cache (run env fuel calls boot) !! k = Some (Profile o) →
  ∃ login t, FetchProfile login t ∈ calls ∧ k = "profile_" +:+ login.
Proof.
  intros [Hboot | (before & c & after & -> & Hwr)]%run_writes;
    [by rewrite boot_empty in Hboot |].
  destruct c; simpl in Hwr; try done.
  - destruct Hwr as [-> _]. eexists _, _. split; [| done].
    apply elem_of_app. right. by left.
  - by destruct Hwr as (_ & ? & ? & _ & [[_ ?] | [_ ?]]).
  - by destruct Hwr as [[_ ?] | [_ ?]].
  - by destruct Hwr as [_ ?].
Qed.

(** A token list sits under the pool's key only. *)
Lemma run_tokens_key (env : Env) (fuel : nat) (calls : list call)
    (k : string) (l : list token) :
  cache (run env fuel calls boot) !! k = Some (Tokens l) →
  k = "donatedTokens".
Proof.
  intros [Hboot | (before & c & after & -> & Hwr)]%run_writes;
    [by rewrite boot_empty in Hboot |].
  destruct c; simpl in Hwr; try done.
  - by destruct Hwr as (_ & ? & ?).
  - by destruct Hwr as (_ & ? & ? & _ & [[_ ?] | [_ ?]]).
  - by destruct Hwr as [[_ ?] | [_ ?]].
  - by destruct Hwr as [-> _].
Qed.

(** *** The trace only grows *)

Lemma catch_trace (env : Env) (path : string) (params : obj) (t : token)
    (w : World) :
  trace (catch (fetchWithOctokit env Single path params t)
           silentError w).2
  = trace w ++ [Request path params (getOctokit env t w)].
Proof.
  unfold catch, fetchWithOctokit. by destruct (octokit _ _ _ _ _ _).
Qed.

Lemma fetchProfile_grows (env : Env) (login : string) (t : token)
    (w : World) :
  trace w `prefix_of` trace (fetchProfile env login t w).2.
Proof.
  unfold fetchProfile. destruct (cache_get _ w); [done |].
  unfold mbind, M_bind.
  pose proof (catch_trace env "users.getForUser"
                {[ "username" := VStr login ]} t w) as H1.
  destruct (catch _ _ w) as [[user | e |] w1]; simpl in H1;
    [| cbn [snd]; rewrite H1; by apply prefix_app_r..].
  destruct (as_user user) as [u |];
    [simpl; rewrite H1; by apply prefix_app_r |].
  pose proof (catch_trace env "orgs.get" {[ "org" := VStr login ]} t w1)
    as H2.
  destruct (catch _ _ w1) as [[[org |] | e |] w2]; simpl in *;
    rewrite H2, H1, <- (assoc_L (++)); by apply prefix_app_r.
Qed.

Lemma fetchRepos_grows (env : Env) (fuel : nat) (profile : obj) (t : token)
    (w : World) :
  trace w `prefix_of` trace (fetchReposForProfile env fuel profile t w).2.
Proof.
  destruct (cached_repos profile t w) as [e |] eqn:Hc.
  - by rewrite (fetchRepos_hit _ _ _ _ _ _ Hc).
  - rewrite (fetchRepos_miss _ _ _ _ _ Hc).
    destruct (paginate_trace env fuel (listing profile).1
                (listing profile).2 t 1 [] w) as (auths & Htrace & _).
    destruct (paginate _ _ _ _ _ _ _ _) as [[fetched | err |] w1];
      simpl in *; rewrite Htrace; by apply prefix_app_r.
Qed.

Lemma fetchFile_grows (env : Env) (repo : obj) (path : string) (t : token)
    (w : World) :
  trace w `prefix_of` trace (fetchFileFromRepo env repo path t w).2.
Proof.
  unfold fetchFileFromRepo. destruct (_ || _).
  - destruct (member _ _) as [login |]; [| done].
    unfold mbind, M_bind.
    pose proof (fetchWithOctokit_trace env Single "repos.getContent"
      {[ "owner" := login; "repo" := get "name" repo; "path" := VStr path ]}
      t w) as Htrace.
    destruct (fetchWithOctokit _ _ _ _ _ _) as [[data | e |] w1];
      simpl in *; try (rewrite Htrace; by apply prefix_app_r).
    unfold getContent. destruct (Buffer_base64_utf8 _ _); simpl;
      rewrite Htrace; by apply prefix_app_r.
  - unfold mbind, M_bind, raw_fetch.
    destruct (fetch _ _ _) as [r | reason]; simpl;
      [| by apply prefix_app_r].
    destruct (bool_decide _); simpl; by apply prefix_app_r.
Qed.

Lemma step_grows (env : Env) (fuel : nat) (w : World) (c : call) :
  trace w `prefix_of` trace (step env fuel w c).
Proof.
  destruct c as [login t | profile t | repo path t | profile pattern t
                 | s path params t | profile t fetched | t | key];
    cbn [step].
  - apply fetchProfile_grows.
  - apply fetchRepos_grows.
  - apply fetchFile_grows.
  - unfold searchFilesFromProfile.
    destruct (search_pages_trace env fuel
                {[ "q" :=
                     VStr ((if loosely_string "Organization"
                                 (get "type" profile)
                            then "org:" +:+ toStr (get "login" profile)
                            else "user:" +:+ toStr (get "login" profile))
                           +:+ " " +:+ "filename:" +:+ pattern) ]}
                t 1 [] w) as (auths & -> & _).
    by apply prefix_app_r.
  - rewrite fetchWithOctokit_trace. by apply prefix_app_r.
  - by rewrite saveRepos_eq.
  - unfold donateToken. by destruct (bool_decide _).
  - done.
Qed.

Lemma run_grows (env : Env) (fuel : nat) (calls : list call) (w : World) :
  trace w `prefix_of` trace (run env fuel calls w).
Proof.
  revert w. induction calls as [| c calls IH]; intros w; [done |].
  simpl. etrans; [apply (step_grows env fuel w c) | apply IH].
Qed.

(** *** Forks *)

Lemma not_fork_spec (r : obj) :
  not_fork r = true ↔ r !! "fork" = Some (VBool false).
Proof.
  unfold not_fork. rewrite is_bool_spec. unfold get.
  destruct (r !! "fork") as [v |]; simpl; split; congruence.
Qed.

Lemma listed_drops (before after : list obj) (r : obj) :
  r !! "fork" ≠ Some (VBool false) →
  listed (before ++ r :: after) = listed (before ++ after).
Proof.
  intros Hr. unfold listed. rewrite !filter_app.
  rewrite filter_cons_False; [done |].
  intros H. apply Hr, not_fork_spec. by apply Is_true_true.
Qed.

Lemma listed_origin (fetched : list obj) (x : obj) :
  x ∈ listed fetched →
  ∃ r, r ∈ fetched ∧ get "fork" r = VBool false ∧ x = compactRepo r.
Proof.
  unfold listed. intros Hx. apply list_elem_of_fmap in Hx as (r & -> & Hr).
  apply list_elem_of_filter in Hr as [Hnf Hr]. exists r.
  split; [done |]. split; [| done].
  apply is_bool_spec. by apply Is_true_true.
Qed.

Lemma no_fork_property (r : obj) :
  r !! "fork" = None → get "fork" r ≠ VBool true.
Proof. intros H. unfold get. by rewrite H. Qed.

(** *** The records of a listing *)

Lemma answered_mono (env : Env) (w w' : World) (r : obj) :
  trace w `prefix_of` trace w' → answered env w r → answered env w' r.
Proof.
  intros [more Hmore] (h & path & params & auth & rest & page & Ht & Hpage).
  exists h, path, params, auth, (rest ++ more), page. split; [| done].
  rewrite Hmore, Ht. by rewrite <- (assoc_L (++)).
Qed.

(** Every record the loop returns is one it started with or one the
    provider sent in answer to one of its page requests. *)
Lemma paginate_answered (env : Env) (fuel : nat) (path : string)
    (params : obj) (t : token) :
  ∀ (page : Z) (acc : list obj) (w w1 : World) (fetched : list obj),
    paginate env fuel path params t page acc w = (Ret fetched, w1) →
    ∀ r, r ∈ fetched → r ∈ acc ∨ answered env w1 r.
Proof.
  induction fuel as [| fuel IH]; intros page acc w w1 fetched Hrun r Hr;
    [done |].
  rewrite paginate_turn in Hrun. unfold fetchWithOctokit in Hrun.
  destruct (octokit env (trace w) Many path _ _) as [sent | reason] eqn:Hsent;
    [| done].
  set (w' := log (Request path (page_params params page)
                    (getOctokit env t w)) w) in *.
  assert (∀ x, x ∈ sent → answered env w' x) as Hnow.
  { intros x Hx.
    exists (trace w), path, (page_params params page), (getOctokit env t w),
           [], sent.
    by split. }
  destruct (bool_decide _).
  - injection Hrun as <- <-.
    apply elem_of_app in Hr as [Hr | Hr]; [by left | right; by apply Hnow].
  - destruct (paginate_trace env fuel path params t (page + 1)%Z
                (acc ++ sent) w') as (auths & Htrace & _).
    rewrite Hrun in Htrace. simpl in Htrace.
    destruct (IH _ _ _ _ _ Hrun r Hr) as [Hacc | Hans]; [| by right].
    apply elem_of_app in Hacc as [Hacc | Hacc]; [by left |].
    right. apply (answered_mono env w' w1); [| by apply Hnow].
    rewrite Htrace. by apply prefix_app_r.
Qed.

Lemma non_forks_listed (env : Env) (calls : list call) (w : World)
    (fetched : list obj) :
  (∀ r, r ∈ fetched → answered env w r ∨ resumed calls r) →
  non_forks env calls w (listed fetched).
Proof.
  intros Hfetched. apply Forall_forall. intros x Hx. split.
  - apply no_fork_property.
    pose proof (listed_compact fetched) as Hl.
    rewrite Forall_forall in Hl. by apply Hl.
  - apply listed_origin in Hx as (r & Hr & Hfork & ->).
    exists r. by auto.
Qed.

Lemma non_forks_mono (env : Env) (calls calls' : list call) (w w' : World)
    (l : list obj) :
  trace w `prefix_of` trace w' →
  (∀ r, resumed calls r → resumed calls' r) →
  non_forks env calls w l → non_forks env calls' w' l.
Proof.
  intros Htrace Hcalls Hl. eapply Forall_impl; [exact Hl |].
  intros x (Hx & r & Hr & Hfork & ->). split; [done |].
  exists r. split; [| done].
  destruct Hr as [Hr | Hr].
  - left. by apply (answered_mono env w w').
  - right. by apply Hcalls.
Qed.

Lemma resumed_one (c : call) (calls : list call) (r : obj) :
  (∀ profile t fetched, c = Resume profile t fetched → c ∈ calls) →
  resumed [c] r → resumed calls r.
Proof.
  intros Hc (profile & t & fetched & Hin & Hr).
  apply list_elem_of_singleton in Hin.
  exists profile, t, fetched. split; [| done].
  rewrite Hin. by eapply Hc.
Qed.

(** What a call writes as a repository list is free of forks. *)
Lemma writes_non_forks (env : Env) (fuel : nat) (w : World) (c : call)
    (k : string) (l : list obj) :
  writes env fuel w c k (Repos l) →
  non_forks env [c] (step env fuel w c) l.
Proof.
  destruct c as [login t | profile t | repo path t | profile pattern t
                 | s path params t | profile t fetched | t | key];
    cbn [writes step]; try done.
  - by intros (_ & ? & ?).
  - intros (Hmiss & fetched & w1 & Hp & Hl).
    rewrite (fetchRepos_miss _ _ _ _ _ Hmiss), Hp. cbn [snd].
    assert (non_forks env [FetchRepos profile t] w1 (listed fetched))
      as Hall.
    { apply non_forks_listed. intros r Hr. left.
      destruct (paginate_answered _ _ _ _ _ _ _ _ _ _ Hp r Hr) as [Hacc | Hans];
        [by apply elem_of_nil in Hacc | done]. }
    eapply (non_forks_mono _ _ _ w1); [done | done |].
    destruct Hl as [[_ [= ->]] | [_ [= ->]]];
      [done | by apply public_of_sublist].
  - intros Hl. rewrite saveRepos_eq. cbn [snd].
    assert (non_forks env [Resume profile t fetched] w (listed fetched))
      as Hall.
    { apply non_forks_listed. intros r Hr. right.
      exists profile, t, fetched. split; [by left | done]. }
    eapply (non_forks_mono _ _ _ w); [done | done |].
    destruct Hl as [[_ [= ->]] | [_ [= ->]]];
      [done | by apply public_of_sublist].
  - by intros [_ ?].
Qed.

(** Every repository list in the cache after a run from start-up is free
    of forks. *)
Lemma run_non_forks (env : Env) (fuel : nat) (calls : list call)
    (k : string) (l : list obj) :
  cache (run env fuel calls boot) !! k = Some (Repos l) →
  non_forks env calls (run env fuel calls boot) l.
Proof.
  intros [Hboot | (before & c & after & -> & Hwr)]%run_writes;
    [by rewrite boot_empty in Hboot |].
  apply writes_non_forks in Hwr.
  eapply non_forks_mono; [| | exact Hwr].
  - unfold run. rewrite foldl_app. simpl. apply run_grows.
  - intros r. apply resumed_one. intros _ _ _ _.
    apply elem_of_app. right. by left.
Qed.

(** The entry an early return of [fetchReposForProfile] hands out sits
    under the key the call looks up. *)
Lemma cached_repos_key (profile : obj) (t : token) (w : World) (e : entry) :
  cached_repos profile t w = Some e →
  cache w !! (if supplied t then privateCacheKey profile t
              else publicCacheKey profile) = Some e.
Proof.
  destruct (supplied t) eqn:Ht.
  - by rewrite cached_repos_supplied.
  - by rewrite cached_repos_anonymous.
Qed.

Lemma listing_key_not_pool (profile : obj) (t : token) :
  (if supplied t then privateCacheKey profile t else publicCacheKey profile)
  ≠ "donatedTokens".
Proof. by destruct (supplied t). Qed.

(** C8: fork exclusion.  After any run from start-up, take a call of
    [fetchReposForProfile] that returns.  A list it returns is free of
    forks: every entry is the compaction of a record whose [fork] is
    [false], sent by the provider in answer to a request of the trace or
    fetched by a suspended listing that completed in the run, and no
    entry has a [fork] that is [true].  So is every list in the cache the
    call leaves, whichever call wrote it: the lists served on a cache hit
    are among them.  When the call had to ask the provider, every entry
    of the list it returns is the compaction of a record of its own
    pages whose [fork] is [false].  What the call returns is such a list,
    unless the key it looks up is also the key of a profile that
    [fetchProfile] stored, in which case it is that profile record. *)
Theorem fetchRepos_excludes_forks (env : Env) (fuel fuel' : nat)
    (calls : list call) (profile : obj) (accessToken : token)
    (e : entry) (w' : World) :
  let w := run env fuel calls boot in
  fetchReposForProfile env fuel' profile accessToken w = (Ret e, w') →
  (∀ l, e = Repos l → non_forks env calls w' l) ∧
  (∀ k l, cache w' !! k = Some (Repos l) → non_forks env calls w' l) ∧
  (cached_repos profile accessToken w = None →
   ∃ fetched w1 l,
     paginate env fuel' (listing profile).1 (listing profile).2
       accessToken 1 [] w = (Ret fetched, w1) ∧
     e = Repos l ∧
     ∀ x, x ∈ l →
          ∃ r, r ∈ fetched ∧ get "fork" r = VBool false ∧ x = compactRepo r) ∧
  ((∃ l, e = Repos l) ∨
   (∃ o login t,
      e = Profile o ∧ FetchProfile login t ∈ calls ∧
      "profile_" +:+ login =
        if supplied accessToken then privateCacheKey profile accessToken
        else publicCacheKey profile)).
Proof.
  intros w Hcall.
  assert (w' = step env fuel' w (FetchRepos profile accessToken)) as Hstep
    by (simpl; by rewrite Hcall).
  assert (∀ k l, cache w !! k = Some (Repos l) → non_forks env calls w' l)
    as Hold.
  { intros k l Hk. apply (non_forks_mono env calls calls w w'); [| done |].
    - rewrite Hstep. apply step_grows.
    - by apply run_non_forks in Hk. }
  assert (∀ k l, cache w' !! k = Some (Repos l) → non_forks env calls w' l)
    as Hcache.
  { intros k l Hk. rewrite Hstep in Hk.
    destruct (step_writes _ _ _ _ _ _ Hk) as [Hbefore | Hwr];
      [by eapply Hold |].
    apply writes_non_forks in Hwr. rewrite <- Hstep in Hwr.
    eapply non_forks_mono; [done | | exact Hwr].
    intros r. by apply resumed_one. }
  split; [| split; [done |]].
  - destruct (cached_repos profile accessToken w) as [hit |] eqn:Hc.
    + rewrite (fetchRepos_hit _ _ _ _ _ _ Hc) in Hcall.
      injection Hcall as <- <-. intros l ->.
      apply cached_repos_key in Hc. by eapply Hold.
    + rewrite (fetchRepos_miss _ _ _ _ _ Hc) in Hcall.
      destruct (paginate _ _ _ _ _ _ _ _) as [[fetched | err |] w1];
        [| done..].
      injection Hcall as <- <-. intros l [= <-].
      destruct (supplied accessToken).
      * apply (Hcache (privateCacheKey profile accessToken)).
        unfold cache_set. cbn [cache].
        rewrite lookup_insert_ne by apply own_keys_differ.
        by rewrite lookup_insert_eq.
      * apply (Hcache (publicCacheKey profile)).
        unfold cache_set. cbn [cache]. by rewrite lookup_insert_eq.
  - destruct (cached_repos profile accessToken w) as [hit |] eqn:Hc.
    + split; [done |].
      rewrite (fetchRepos_hit _ _ _ _ _ _ Hc) in Hcall.
      injection Hcall as <- _. apply cached_repos_key in Hc.
      destruct hit as [o | l | l].
      * right. apply run_profile_origin in Hc as (login & t & Hin & Hkey).
        by exists o, login, t.
      * left. by exists l.
      * apply run_tokens_key in Hc. by apply listing_key_not_pool in Hc.
    + rewrite (fetchRepos_miss _ _ _ _ _ Hc) in Hcall.
      destruct (paginate _ _ _ _ _ _ _ _) as [[fetched | err |] w1] eqn:Hp;
        [| done..].
      injection Hcall as <- _. split; [| left; by eexists].
      intros _. eexists fetched, w1, _. split; [done |]. split; [done |].
      intros x Hx. apply listed_origin.
      destruct (supplied accessToken); [done |].
      unfold public_of in Hx. by apply list_elem_of_filter in Hx as [_ Hx].
Qed.

(** C10: the fork filter is strict.  A record is kept exactly when it has
    a [fork] property that is the boolean [false].  So when a call has to
    ask the provider and a fetched record [r] has no [fork], or [null], or
    anything else that is not [false], the list returned and the two
    cache entries written are the ones the call would have produced had
    the provider never returned [r]. *)
Theorem fork_filter_is_strict (env : Env) (fuel : nat) (profile : obj)
    (accessToken : token) (w w1 : World) (before after : list obj)
    (r : obj) :
  cached_repos profile accessToken w = None →
  paginate env fuel (listing profile).1 (listing profile).2 accessToken
    1 [] w = (Ret (before ++ r :: after), w1) →
  r !! "fork" ≠ Some (VBool false) →
  let kept :=
    map compactRepo (filter (fun x => not_fork x) (before ++ after)) in
  let public := filter (fun x => not_private x) kept in
  (∀ x : obj, not_fork x = true ↔ x !! "fork" = Some (VBool false)) ∧
  ∃ w' : World,
    fetchReposForProfile env fuel profile accessToken w
    = (Ret (Repos (if supplied accessToken then kept else public)), w') ∧
    cache w' !! privateCacheKey profile accessToken = Some (Repos kept) ∧
    cache w' !! publicCacheKey profile = Some (Repos public).
Proof.
  intros Hmiss Hpages Hr kept public. split; [apply not_fork_spec |].
  assert (kept = listed (before ++ r :: after)) as Hkept
    by (by rewrite listed_drops).
  rewrite (fetchRepos_miss _ _ _ _ _ Hmiss), Hpages.
  eexists. split; [| split].
  - by rewrite <- Hkept.
  - unfold cache_set. cbn [cache].
    rewrite lookup_insert_ne by apply own_keys_differ.
    by rewrite lookup_insert_eq.
  - unfold cache_set. cbn [cache]. by rewrite lookup_insert_eq.
Qed.

(** *** Public-cache isolation *)

Lemma paginate_supplied (env : Env) (fuel : nat) (path : string)
    (params : obj) (t : token) :
  supplied t = true →
  ∀ (page : Z) (acc : list obj) (w1 w2 : World),
    trace w1 = trace w2 →
    (paginate env fuel path params t page acc w1).1
    = (paginate env fuel path params t page acc w2).1 ∧
    trace (paginate env fuel path params t page acc w1).2
    = trace (paginate env fuel path params t page acc w2).2.
Proof.
  intros Ht. induction fuel as [| fuel IH]; intros page acc w1 w2 Htr.
  - done.
  - rewrite !paginate_turn. unfold fetchWithOctokit.
    rewrite !getOctokit_supplied by done. rewrite Htr.
    destruct (octokit _ _ _ _ _ _) as [fetched | reason]; simpl.
    + destruct (bool_decide _); simpl; [by rewrite Htr |].
      apply IH. simpl. by rewrite Htr.
    + by rewrite Htr.
Qed.

(** C1, as the code has it: public-cache isolation for the logins whose
    public key no private key can equal.  After any run from start-up,
    for a profile whose login contains no underscore: the public-keyed
    entry is a list of repositories whose [private] is [false], unless
    the run has a [fetchProfile] of the login [repos_<login>], whose
    cache key is the same string, in which case it can be the profile
    record that call stored; a call without a token that returns, be it
    run to its end or completed after a suspension, returns one of these
    two and nothing else; and what a token-bearing call returns does not
    depend on what the public-keyed entry of its profile holds. *)
Theorem public_cache_isolation (env : Env) (fuel fuel' : nat)
    (calls : list call) (profile : obj) (accessToken : token) :
  underscore_free (toStr (get "login" profile)) = true →
  let w := run env fuel calls boot in
  let login := toStr (get "login" profile) in
  (∀ e, cache w !! publicCacheKey profile = Some e →
        public_only calls login e) ∧
  (supplied accessToken = false →
   ∀ e w',
     fetchReposForProfile env fuel' profile accessToken w = (Ret e, w') ∨
     (∃ fetched, saveRepos profile accessToken fetched w = (Ret e, w')) →
     public_only calls login e) ∧
  (supplied accessToken = true →
   ∀ e, (fetchReposForProfile env fuel' profile accessToken
           (cache_set (publicCacheKey profile) e w)).1
        = (fetchReposForProfile env fuel' profile accessToken w).1).
Proof.
  intros Hfree w login.
  assert (coherent w) as Hw by apply run_coherent, boot_coherent.
  assert (∀ e, cache w !! publicCacheKey profile = Some e →
               public_only calls login e) as Hpub.
  { intros [o | l | l] He.
    - right. apply run_profile_origin in He as (login' & t & Hin & Hkey).
      unfold publicCacheKey in Hkey.
      change ("profile_repos_" +:+ toStr (get "login" profile))
        with ("profile_" +:+ ("repos_" +:+ login)) in Hkey.
      apply (inj (String.app _)) in Hkey. subst login'. by exists o, t.
    - left. exists l. split; [done |].
      destruct (Hw _ _ He) as [[_ Hp] _]. by eapply Hp.
    - by apply run_tokens_key in He. }
  assert (∀ fetched,
            public_only calls login (Repos (public_of (listed fetched))))
    as Hfresh.
  { intros fetched. left. eexists. split; [done |]. apply public_of_public. }
  split; [done |]. split.
  - intros Ht e w' [Hcall | [fetched Hcall]];
      [| rewrite saveRepos_eq, Ht in Hcall; injection Hcall as <- _;
         apply Hfresh].
    destruct (cached_repos profile accessToken w) as [hit |] eqn:Hc.
    + rewrite (fetchRepos_hit _ _ _ _ _ _ Hc) in Hcall.
      injection Hcall as -> <-.
      rewrite cached_repos_anonymous in Hc by done. by apply Hpub.
    + rewrite (fetchRepos_miss _ _ _ _ _ Hc) in Hcall.
      destruct (paginate _ _ _ _ _ _ _ _) as [[fetched | err |] w1];
        [| done..].
      rewrite Ht in Hcall. injection Hcall as <- <-.
      apply Hfresh.
  - intros Ht e.
    set (w0 := cache_set (publicCacheKey profile) e w).
    assert (cached_repos profile accessToken w0
            = cached_repos profile accessToken w) as Hsame.
    { rewrite !cached_repos_supplied by done. unfold w0, cache_set.
      cbn [cache]. rewrite lookup_insert_ne; [done |].
      apply own_keys_differ. }
    destruct (cached_repos profile accessToken w) as [hit |] eqn:Hc.
    + by rewrite (fetchRepos_hit _ _ _ _ _ _ Hc),
                 (fetchRepos_hit _ _ _ _ _ _ Hsame).
    + rewrite (fetchRepos_miss _ _ _ _ _ Hc),
              (fetchRepos_miss _ _ _ _ _ Hsame).
      destruct (paginate_supplied env fuel' (listing profile).1
                  (listing profile).2 accessToken Ht 1 [] w0 w eq_refl)
        as [Hout _].
      destruct (paginate _ _ _ _ _ _ _ w0) as [o0 w0'].
      destruct (paginate _ _ _ _ _ _ _ w) as [o1 w1'].
      simpl in Hout. subst o1. by destruct o0.
Qed.

(** ** Token donation *)

Lemma donateToken_pool (t : token) (w : World) :
  donatedTokens (donateToken t w).2 =
    if bool_decide (t ∈ donatedTokens w) then donatedTokens w
    else donatedTokens w ++ [t].
Proof.
  unfold donateToken. destruct (decide (t ∈ donatedTokens w)) as [Hin | Hout].
  - rewrite bool_decide_false by (by intros H; apply H).
    by rewrite bool_decide_true.
  - rewrite bool_decide_true, bool_decide_false by done.
    unfold store, cache_set, donatedTokens at 1, cache_get. simpl.
    by rewrite lookup_insert_eq.
Qed.

(** C9: donation has set semantics.  After any run from start-up,
    [donateToken t] leaves the pool as it is when [t] is in it and appends
    [t] otherwise, and stores the pool under [donatedTokens]; a second
    [donateToken t] changes nothing; and after the two calls the pool
    holds [t] exactly once. *)
Theorem donateToken_set_semantics (env : Env) (fuel : nat)
    (calls : list call) (t : token) :
  let w := run env fuel calls boot in
  let w1 := (donateToken t w).2 in
  let w2 := (donateToken t w1).2 in
  donatedTokens w1 =
    (if bool_decide (t ∈ donatedTokens w) then donatedTokens w
     else donatedTokens w ++ [t]) ∧
  cache w1 !! "donatedTokens" = Some (Tokens (donatedTokens w1)) ∧
  w2 = w1 ∧
  ∃ l1 l2, donatedTokens w2 = l1 ++ t :: l2 ∧ (t ∉ l1) ∧ (t ∉ l2).
Proof.
  intros w w1 w2.
  assert (coherent w) as Hw by apply run_coherent, boot_coherent.
  assert (coherent w1) as Hw1 by apply (step_coherent env fuel w (Donate t) Hw).
  pose proof (donateToken_pool t w) as Hpool. fold w1 in Hpool.
  assert (t ∈ donatedTokens w1) as Hin.
  { rewrite Hpool. case_bool_decide; [done |].
    apply elem_of_app. right. by apply list_elem_of_singleton. }
  assert (w2 = w1) as Heq.
  { unfold w2, donateToken.
    by rewrite bool_decide_false by (by intros H; apply H). }
  split; [done |]. split; [| split; [done |]].
  - unfold donatedTokens, cache_get in Hin |- *.
    destruct (cache w1 !! "donatedTokens") as [[| |l] |];
      try (by apply elem_of_nil in Hin). done.
  - rewrite Heq. apply list_elem_of_split in Hin as (l1 & l2 & Hsplit).
    exists l1, l2. split; [done |].
    pose proof (pool_coherent w1 Hw1) as Hnd. rewrite Hsplit in Hnd.
    apply NoDup_app in Hnd as (_ & Hdisj & Hnd).
    apply NoDup_cons in Hnd as [Hl2 _]. split; [| done].
    intros Hl1. apply (Hdisj t Hl1). by left.
Qed.

(** ** The properties at work *)

Import Scenario.

(** The example of the specification: without a token only the public
    repository that is no fork is listed, with a token both repositories
    that are no forks are. *)
Example octocat_listing :
  let E := provider [hello; spoon; vault] in
  (fetchReposForProfile E 3 octocat None boot).1
  = Ret (Repos [compactRepo hello]) ∧
  (fetchReposForProfile E 3 octocat (Some "octocat-token") boot).1
  = Ret (Repos [compactRepo hello; compactRepo vault]).
Proof. split; reflexivity. Qed.

(** C1 as stated fails: the private key of login [acme] with token
    [t0k3n] is the public key of login [acme_t0k3n].  After a
    token-bearing listing of [acme], a listing of [acme_t0k3n] without a
    token is served from that entry and returns a private repository. *)
Lemma public_key_collision :
  let E := provider [hello; spoon; vault] in
  let w := run E 3 [FetchRepos acme (Some "t0k3n")] boot in
  supplied None = false ∧
  publicCacheKey lookalike = privateCacheKey acme (Some "t0k3n") ∧
  cache w !! publicCacheKey lookalike
  = Some (Repos [compactRepo hello; compactRepo vault]) ∧
  fetchReposForProfile E 3 lookalike None w
  = (Ret (Repos [compactRepo hello; compactRepo vault]), w) ∧
  get "private" (compactRepo vault) = VBool true.
Proof. repeat split; reflexivity. Qed.

(** The second coincidence of keys: the profile key of the login
    [repos_octocat] is the public key of the login [octocat].  After a
    [fetchProfile] of [repos_octocat] that finds a profile, a listing of
    [octocat] without a token is served that profile record. *)
Example profile_key_collision :
  let w := run directory 3 [FetchProfile "repos_octocat" None] boot in
  underscore_free (toStr (get "login" octocat)) = true ∧
  "profile_" +:+ "repos_octocat" = publicCacheKey octocat ∧
  fetchReposForProfile directory 3 octocat None w = (Ret (Profile octocat), w).
Proof. repeat split; reflexivity. Qed.

(** C1 at work: after a token-bearing listing of [octocat], the listing
    without a token returns the public repository only. *)
Lemma public_cache_isolation_witness :
  let E := provider [hello; spoon; vault] in
  let w := run E 3 [FetchRepos octocat (Some "octocat-token")] boot in
  underscore_free (toStr (get "login" octocat)) = true ∧
  (fetchReposForProfile E 3 octocat None w).1
  = Ret (Repos [compactRepo hello]) ∧
  Forall (fun r : obj => get "private" r = VBool false) [compactRepo hello].
Proof.
  intros E w. split; [reflexivity |]. split; [reflexivity |].
  destruct (public_cache_isolation E 3 3
              [FetchRepos octocat (Some "octocat-token")] octocat None
              eq_refl) as (_ & Hanonymous & _).
  destruct (Hanonymous eq_refl (Repos [compactRepo hello])
              (fetchReposForProfile E 3 octocat None w).2
              (or_introl eq_refl))
    as [(l & Hl & Hpublic) | (o & t & Ho & _)].
  - injection Hl as <-. exact Hpublic.
  - discriminate Ho.
Defined.

(** C3 as stated fails: a pool that is not empty does not make one of
    its elements the credential.  [donateToken] takes [undefined] and the
    empty string like any other value; when the pool is [[undefined]], or
    [[""]], the element chosen is no usable token and the guest token is
    used, which is no element of the pool. *)
Lemma pool_element_not_used :
  let w := (donateToken None boot).2 in
  let w' := (donateToken (Some "") boot).2 in
  donatedTokens w = [None] ∧
  getOctokit (provider []) None w = Some "guest-token" ∧
  (Some "guest-token" ∉ donatedTokens w) ∧
  donatedTokens w' = [Some ""] ∧
  getOctokit (provider []) None w' = Some "guest-token" ∧
  (Some "guest-token" ∉ donatedTokens w').
Proof.
  repeat split; try reflexivity;
    intros Hin; apply list_elem_of_singleton in Hin; discriminate Hin.
Qed.

(** C3 at work: the caller's token wins; without one the sample
    0.3333333333333333 picks the first of two donated tokens; without a
    pool the guest token is used. *)
Lemma getOctokit_precedence_witness :
  getOctokit (provider []) (Some "caller-token") donated
  = Some "caller-token" ∧
  getOctokit (provider []) None donated = Some "alice-token" ∧
  getOctokit (provider []) None boot = Some "guest-token".
Proof.
  destruct (getOctokit_precedence (provider []) donated (Some "caller-token"))
    as (Hcaller & _ & _).
  destruct (getOctokit_precedence (provider []) donated None)
    as (_ & Hpool & _).
  destruct (getOctokit_precedence (provider []) boot None)
    as (_ & _ & Hguest).
  split; [apply Hcaller; reflexivity |]. split.
  - destruct (Hpool eq_refl ltac:(vm_compute; discriminate))
      as (chosen & _ & Hchosen & _ & Hresult).
    vm_compute in Hchosen. injection Hchosen as <-. exact Hresult.
  - apply Hguest; reflexivity.
Defined.

(** C4 at work: the private [vault] is read through [repos.getContent],
    the public [hello] through the raw-content host. *)
Lemma fetchFileFromRepo_routing_witness :
  fetchFileFromRepo (provider []) (compactRepo vault) "package.json" None boot
  = (Ret "hello",
     mkWorld ∅
       [Request "repos.getContent"
          {[ "owner" := VStr "octocat"; "repo" := VStr "vault";
             "path" := VStr "package.json" ]}
          (Some "guest-token")]) ∧
  (fetchFileFromRepo (provider []) (compactRepo hello) "package.json" None
     boot).2
  = mkWorld ∅
      [RawFetch
         "https://raw.githubusercontent.com/octocat/hello/master/package.json"].
Proof.
  split.
  - destruct (fetchFileFromRepo_routing (provider []) (compactRepo vault)
                "package.json" None boot) as [Hauth _].
    destruct (Hauth (or_intror eq_refl)) as [Hrequest _].
    rewrite (Hrequest (VStr "octocat") eq_refl).
    reflexivity.
  - destruct (fetchFileFromRepo_routing (provider []) (compactRepo hello)
                "package.json" None boot) as [_ Hraw].
    destruct (Hraw eq_refl ltac:(vm_compute; discriminate)) as [o Ho].
    rewrite Ho. reflexivity.
Defined.

(** C5 at work: the raw-content host answers 404. *)
Lemma fetchFileFromRepo_public_status_witness :
  fetchFileFromRepo (provider []) (compactRepo hello) "package.json" None boot
  = (Throw
       (Error
          "Can't fetch package.json from /octocat/hello/master/package.json."),
     mkWorld ∅
       [RawFetch
          "https://raw.githubusercontent.com/octocat/hello/master/package.json"]).
Proof.
  destruct (fetchFileFromRepo_public_status (provider [])
              (compactRepo hello) "package.json" None boot
              (mkResponse 404 "404: Not Found")
              eq_refl ltac:(vm_compute; discriminate) eq_refl)
    as [_ Hfailure].
  rewrite Hfailure by (vm_compute; discriminate).
  reflexivity.
Defined.

(** C6 at work: a login that is neither a user nor an organization. *)
Lemma fetchProfile_user_lookup_fails_witness :
  fetchProfile (provider []) "ghost" None boot
  = (Ret None,
     mkWorld ∅
       [Request "users.getForUser" {[ "username" := VStr "ghost" ]}
          (Some "guest-token");
        Request "orgs.get" {[ "org" := VStr "ghost" ]}
          (Some "guest-token")]).
Proof.
  destruct (fetchProfile_user_lookup_fails (provider []) "ghost" None boot
              (VNum 404) eq_refl eq_refl) as [_ Hnull].
  exact Hnull.
Defined.


(** C8 at work: the fork [spoon] is not listed, and the two entries
    listed are the compactions of records the provider sent with [fork]
    [false]. *)
Lemma fetchRepos_excludes_forks_witness :
  let E := provider [hello; spoon; vault] in
  let result :=
    fetchReposForProfile E 3 octocat (Some "octocat-token")
      (run E 3 [] boot) in
  result.1 = Ret (Repos [compactRepo hello; compactRepo vault]) ∧
  non_forks E [] result.2 [compactRepo hello; compactRepo vault].
Proof.
  intros E result. split; [reflexivity |].
  destruct (fetchRepos_excludes_forks E 3 3 [] octocat
              (Some "octocat-token")
              (Repos [compactRepo hello; compactRepo vault])
              result.2) as (Hresult & _).
  - reflexivity.
  - by apply Hresult.
Defined.

(** C10 at work: [orphan], whose [fork] is [null], is listed nowhere. *)
Lemma fork_filter_is_strict_witness :
  let E := provider [hello; orphan; vault] in
  orphan !! "fork" = Some VNull ∧
  (fetchReposForProfile E 3 octocat None boot).1
  = Ret (Repos [compactRepo hello]) ∧
  cache (fetchReposForProfile E 3 octocat None boot).2
    !! privateCacheKey octocat None
  = Some (Repos [compactRepo hello; compactRepo vault]).
Proof.
  intros E. split; [reflexivity |].
  destruct (fork_filter_is_strict E 3 octocat None boot
              (paginate E 3 (listing octocat).1 (listing octocat).2 None
                 1 [] boot).2
              [hello] [vault] orphan)
    as (_ & w' & Hcall & Hprivate & _).
  - reflexivity.
  - reflexivity.
  - vm_compute. discriminate.
  - rewrite Hcall. split; [reflexivity |].
    cbn [snd]. rewrite Hprivate. reflexivity.
Defined.

(** * Further properties of the module *)

(** ** Compaction *)

Lemma pick_idempotent (ks : list string) (o : obj) :
  pick ks (pick ks o) = pick ks o.
Proof.
  apply map_eq. intros k. rewrite !lookup_pick.
  by destruct (decide (k ∈ ks)).
Qed.

(** X1: what a compact record holds.  Its [owner] is the provider's
    [owner] reduced to [login]; each of [id], [name], [full_name],
    [default_branch], [private] and [language] is there exactly as the
    provider sent it; and it has no other property, so nothing else of
    the provider's payload survives. *)
Theorem compactRepo_lookup (r : obj) (k : string) :
  compactRepo r !! k =
    if decide (k = "owner")
    then Some (VObj (pick_value ["login"] (get "owner" r)))
    else if decide (k ∈ ["id"; "name"; "full_name"; "default_branch";
                         "private"; "language"])
    then r !! k
    else None.
Proof.
  destruct (decide (k = "owner")) as [-> | Hne].
  - apply compactRepo_lookup_owner.
  - destruct (decide (k ∈ _)) as [Hin | Hout].
    + by apply compactRepo_lookup_kept.
    + apply compactRepo_lookup_dropped.
      rewrite !elem_of_cons, elem_of_nil. intros H. apply Hout.
      rewrite !elem_of_cons, elem_of_nil. naive_solver.
Qed.

(** X2: compacting a compact record changes nothing. *)
Theorem compactRepo_idempotent (r : obj) :
  compactRepo (compactRepo r) = compactRepo r.
Proof.
  apply map_eq. intros k.
  destruct (decide (k = "owner")) as [-> | Hne].
  - rewrite !compactRepo_lookup_owner. unfold get at 1.
    rewrite compactRepo_lookup_owner. simpl.
    do 2 f_equal. unfold get. destruct (r !! "owner") as [[] |]; simpl;
      try done; try (apply map_eq; intros k; rewrite lookup_pick;
                      by destruct (decide _)).
    apply pick_idempotent.
  - destruct (decide (k ∈ ["id"; "name"; "full_name"; "default_branch";
                           "private"; "language"])) as [Hin | Hout].
    + by rewrite !compactRepo_lookup_kept.
    + assert (k ∉ ["id"; "name"; "owner"; "full_name"; "default_branch";
                   "private"; "language"]) as Hk.
      { rewrite !elem_of_cons, elem_of_nil. intros H. apply Hout.
        rewrite !elem_of_cons, elem_of_nil. naive_solver. }
      by rewrite !compactRepo_lookup_dropped.
Qed.

(** ** Credentials and the pool *)

Lemma supplied_nonempty (s : string) : supplied (Some s) = true → s ≠ "".
Proof.
  simpl. intros H ->. by rewrite bool_decide_true in H.
Qed.

Lemma guest_or_anonymous_usable (env : Env) :
  guest_or_anonymous env = None ∨
  ∃ s, guest_or_anonymous env = Some s ∧ s ≠ "" ∧
       Some s = GITHUB_GUEST_TOKEN env.
Proof.
  unfold guest_or_anonymous.
  destruct (supplied (GITHUB_GUEST_TOKEN env)) eqn:Hg; [| by left].
  destruct (GITHUB_GUEST_TOKEN env) as [s |]; [| done].
  right. exists s. split; [done |]. split; [| done].
  by apply supplied_nonempty.
Qed.

(** X3: the credential [getOctokit] resolves is never the empty string:
    the client is anonymous, or it is authenticated with a non-empty token
    that is the caller's, an element of the pool or the guest token. *)
Theorem getOctokit_usable (env : Env) (t : token) (w : World) :
  getOctokit env t w = None ∨
  ∃ s, getOctokit env t w = Some s ∧ s ≠ "" ∧
       (Some s = t ∨ Some s ∈ donatedTokens w ∨
        Some s = GITHUB_GUEST_TOKEN env).
Proof.
  destruct (supplied t) eqn:Ht.
  - rewrite getOctokit_supplied by done. destruct t as [s |]; [| done].
    right. exists s. split; [done |]. split; [| by left].
    by apply supplied_nonempty.
  - destruct (donatedTokens w) as [| x pool] eqn:Hpool.
    + rewrite getOctokit_no_pool by done.
      destruct (guest_or_anonymous_usable env) as [-> | (s & -> & Hs & Hg)];
        [by left |].
      right. exists s. auto.
    + rewrite getOctokit_pool by (by rewrite ?Hpool). simpl.
      destruct (default None _) as [s |] eqn:Hchosen.
      * destruct (supplied (Some s)) eqn:Hs.
        -- right. exists s. split; [done |].
           split; [by apply supplied_nonempty |]. right; left.
           rewrite <- Hpool.
           destruct (donatedTokens w !! _) as [y |] eqn:Hy; simpl in Hchosen;
             [| done].
           subst y. by eapply list_elem_of_lookup_2.
        -- destruct (guest_or_anonymous_usable env)
             as [-> | (s' & -> & Hs' & Hg)]; [by left |].
           right. exists s'. auto.
      * simpl.
        destruct (guest_or_anonymous_usable env)
          as [-> | (s' & -> & Hs' & Hg)]; [by left |].
        right. exists s'. auto.
Qed.

(** X4: when no token is supplied and the pool is not empty and holds
    usable tokens only, the credential is an element of the pool: the
    guest token is not used. *)
Theorem getOctokit_draws_from_pool (env : Env) (t : token) (w : World) :
  supplied t = false →
  donatedTokens w ≠ [] →
  Forall (fun x => supplied x = true) (donatedTokens w) →
  getOctokit env t w ∈ donatedTokens w.
Proof.
  intros Ht Hpool Husable. rewrite getOctokit_pool by done. simpl.
  destruct (lookup_lt_is_Some_2 (donatedTokens w)
              (floor_times (Math_random env (trace w))
                 (length (donatedTokens w)))) as [chosen Hc].
  { apply floor_times_lt. destruct (donatedTokens w); [done | simpl; lia]. }
  rewrite Hc. simpl.
  assert (chosen ∈ donatedTokens w) as Hin by by eapply list_elem_of_lookup_2.
  rewrite Forall_forall in Husable. by rewrite (Husable _ Hin).
Qed.

(** X5: the first donation serves every anonymous request.  Once a usable
    token has been donated to an empty pool it is the credential of every
    call made without a token, whatever the random source and the guest
    token are. *)
Theorem donated_token_is_used (env : Env) (t t0 : token) (w : World) :
  donatedTokens w = [] →
  supplied t = true →
  supplied t0 = false →
  getOctokit env t0 (donateToken t w).2 = t.
Proof.
  intros Hempty Ht Ht0.
  pose proof (donateToken_pool t w) as Hpool.
  rewrite Hempty in Hpool. rewrite bool_decide_false in Hpool
    by apply not_elem_of_nil. simpl in Hpool.
  rewrite getOctokit_pool by (by rewrite ?Hpool). rewrite Hpool. simpl.
  assert (floor_times (Math_random env (trace (donateToken t w).2)) 1 = 0)
    as -> by (pose proof (floor_times_lt
                (Math_random env (trace (donateToken t w).2)) 1); lia).
  simpl. by rewrite Ht.
Qed.

Lemma donatedTokens_ext (w w' : World) :
  cache w' !! "donatedTokens" = cache w !! "donatedTokens" →
  donatedTokens w' = donatedTokens w.
Proof. intros H. unfold donatedTokens, cache_get. by rewrite H. Qed.

Lemma pool_kept (w w' : World) :
  cache w' !! "donatedTokens" = cache w !! "donatedTokens" →
  donatedTokens w `prefix_of` donatedTokens w'.
Proof. intros H. by rewrite (donatedTokens_ext w w' H). Qed.

Lemma pool_step (env : Env) (fuel : nat) (w : World) (c : call) :
  c ≠ Evict "donatedTokens" →
  donatedTokens w `prefix_of` donatedTokens (step env fuel w c).
Proof.
  intros Hc.
  destruct c as [login t | profile t | repo path t | profile pattern t
                 | s path params t | profile t fetched | t | key];
    cbn [step].
  - apply pool_kept.
    destruct (fetchProfile_cache env login t w) as [-> | [o ->]]; [done |].
    by rewrite lookup_insert_ne.
  - apply pool_kept.
    destruct (fetchRepos_cache env fuel profile t w) as [-> | [f ->]];
      [done |].
    by rewrite !lookup_insert_ne.
  - apply pool_kept. by rewrite fetchFile_cache.
  - apply pool_kept.
    unfold searchFilesFromProfile. by rewrite search_pages_cache.
  - apply pool_kept. by rewrite fetchWithOctokit_cache.
  - apply pool_kept.
    rewrite saveRepos_eq. unfold cache_set. cbn [snd cache].
    by rewrite !lookup_insert_ne.
  - rewrite donateToken_pool. case_bool_decide; [done |].
    by apply prefix_app_r.
  - apply pool_kept. cbn [cache].
    apply lookup_delete_ne. congruence.
Qed.

(** X6: the module never removes or reorders a donated token.  Along any
    run in which the cache does not drop the pool's own entry, the pool
    at the start is a prefix of the pool at the end. *)
Theorem pool_only_grows (env : Env) (fuel : nat) (calls : list call)
    (w : World) :
  Forall (fun c => c ≠ Evict "donatedTokens") calls →
  donatedTokens w `prefix_of` donatedTokens (run env fuel calls w).
Proof.
  intros Hcalls. revert w.
  induction Hcalls as [| c calls Hc _ IH]; intros w; [done |].
  simpl. etrans; [by apply (pool_step env fuel w c) | apply IH].
Qed.

(** ** Profile resolution *)

(** [fetchProfile] on a cache miss, in closed form. *)
Lemma fetchProfile_miss (env : Env) (login : string) (t : token) (w : World) :
  let cacheKey := "profile_" +:+ login in
  let asUser :=
    Request "users.getForUser" {[ "username" := VStr login ]}
      (getOctokit env t w) in
  let w1 := log asUser w in
  let asOrg :=
    Request "orgs.get" {[ "org" := VStr login ]} (getOctokit env t w1) in
  cache_get cacheKey w = None →
  fetchProfile env login t w =
    match
      as_user
        match octokit env (trace w) Single "users.getForUser"
                {[ "username" := VStr login ]} (getOctokit env t w) with
        | Ok user => Some user
        | Err _ => None
        end
    with
    | Some user =>
        (Ret (Some (Profile user)), cache_set cacheKey (Profile user) w1)
    | None =>
        match octokit env (trace w1) Single "orgs.get"
                {[ "org" := VStr login ]} (getOctokit env t w1) with
        | Ok org =>
            (Ret (Some (Profile org)),
             cache_set cacheKey (Profile org) (log asOrg w1))
        | Err _ => (Ret None, log asOrg w1)
        end
    end.
Proof.
  intros cacheKey asUser w1 asOrg Hmiss.
  unfold fetchProfile. fold cacheKey. rewrite Hmiss.
  unfold mbind, M_bind, catch, silentError, fetchWithOctokit.
  fold asUser. fold w1.
  destruct (octokit env (trace w) Single "users.getForUser" _ _)
    as [user | reason]; cbn [as_user].
  - destruct (negb (is_string "Organization" (get "type" user))); [done |].
    fold asOrg.
    by destruct (octokit env (trace w1) Single "orgs.get" _ _).
  - fold asOrg.
    by destruct (octokit env (trace w1) Single "orgs.get" _ _).
Qed.

(** X7: [fetchProfile] never fails.  Whatever the provider answers or
    rejects, the call returns: a profile or [null]. *)
Theorem fetchProfile_never_throws (env : Env) (login : string) (t : token)
    (w : World) :
  ∃ r : option entry, (fetchProfile env login t w).1 = Ret r.
Proof.
  destruct (cache_get ("profile_" +:+ login) w) as [e |] eqn:Hc.
  - unfold fetchProfile. rewrite Hc. by eexists.
  - rewrite (fetchProfile_miss env login t w Hc).
    destruct (as_user _); [by eexists |].
    destruct (octokit _ _ _ _ _ _); by eexists.
Qed.

(** X8: a resolved profile is remembered.  Once [fetchProfile] has
    returned a profile for a login, every later call for that login,
    with any token and whatever the provider would answer by then,
    returns the same profile without issuing a request, as long as the
    cache keeps the entry. *)
Theorem fetchProfile_memoizes (env env' : Env) (login : string)
    (t t' : token) (w w' : World) (p : entry) :
  fetchProfile env login t w = (Ret (Some p), w') →
  fetchProfile env' login t' w' = (Ret (Some p), w').
Proof.
  intros Hcall.
  assert (cache_get ("profile_" +:+ login) w' = Some p) as Hkept.
  { destruct (cache_get ("profile_" +:+ login) w) as [e |] eqn:Hc.
    - unfold fetchProfile in Hcall. rewrite Hc in Hcall.
      by injection Hcall as -> <-.
    - rewrite (fetchProfile_miss env login t w Hc) in Hcall.
      destruct (as_user _) as [user |].
      + injection Hcall as <- <-. unfold cache_get, cache_set. simpl.
        by rewrite lookup_insert_eq.
      + destruct (octokit _ _ _ _ _ _) as [org | reason]; [| done].
        injection Hcall as <- <-. unfold cache_get, cache_set. simpl.
        by rewrite lookup_insert_eq. }
  unfold fetchProfile. by rewrite Hkept.
Qed.

(** X9: an unresolved login is not remembered.  When [fetchProfile]
    returns [null] it has issued exactly two requests, the user lookup
    and then the organization lookup, and has left the cache as it was,
    so the next call for the login asks the provider again. *)
Theorem fetchProfile_null_not_cached (env : Env) (login : string)
    (t : token) (w w' : World) :
  fetchProfile env login t w = (Ret None, w') →
  cache w' = cache w ∧
  cache_get ("profile_" +:+ login) w' = None ∧
  ∃ auth1 auth2,
    trace w' = trace w ++
      [Request "users.getForUser" {[ "username" := VStr login ]} auth1;
       Request "orgs.get" {[ "org" := VStr login ]} auth2].
Proof.
  intros Hcall.
  destruct (cache_get ("profile_" +:+ login) w) as [e |] eqn:Hc.
  { unfold fetchProfile in Hcall. by rewrite Hc in Hcall. }
  rewrite (fetchProfile_miss env login t w Hc) in Hcall.
  destruct (as_user _) as [user |]; [done |].
  destruct (octokit _ _ _ _ _ _) as [org | reason]; [done |].
  injection Hcall as <-. split; [done |]. split; [done |].
  eexists _, _. simpl. by rewrite <- (assoc_L (++)).
Qed.

(** X10: what the user lookup's answer decides.  On a cache miss, a
    record whose [type] is not ['Organization'] is cached and returned
    after that one request.  A record whose [type] is ['Organization'] is
    set aside: the organization lookup is issued and decides alone, and
    when it is rejected the result is [null] and nothing is cached,
    although the provider had answered the first request. *)
Theorem fetchProfile_user_answer (env : Env) (login : string) (t : token)
    (w : World) (user : obj) :
  let cacheKey := "profile_" +:+ login in
  let asUser :=
    Request "users.getForUser" {[ "username" := VStr login ]}
      (getOctokit env t w) in
  let w1 := log asUser w in
  let asOrg :=
    Request "orgs.get" {[ "org" := VStr login ]} (getOctokit env t w1) in
  cache_get cacheKey w = None →
  octokit env (trace w) Single "users.getForUser"
    {[ "username" := VStr login ]} (getOctokit env t w) = Ok user →
  (get "type" user ≠ VStr "Organization" →
   fetchProfile env login t w
   = (Ret (Some (Profile user)), cache_set cacheKey (Profile user) w1)) ∧
  (get "type" user = VStr "Organization" →
   fetchProfile env login t w =
     match octokit env (trace w1) Single "orgs.get"
             {[ "org" := VStr login ]} (getOctokit env t w1) with
     | Ok org =>
         (Ret (Some (Profile org)),
          cache_set cacheKey (Profile org) (log asOrg w1))
     | Err _ => (Ret None, log asOrg w1)
     end).
Proof.
  intros cacheKey asUser w1 asOrg Hmiss Huser.
  rewrite (fetchProfile_miss env login t w Hmiss), Huser. cbn [as_user].
  split; intros Htype.
  - assert (is_string "Organization" (get "type" user) = false) as ->; [| done].
    destruct (get "type" user) as [| | | | s | |]; simpl; try done.
    apply bool_decide_false. congruence.
  - by rewrite Htype.
Qed.

(** ** Repository listing *)

Lemma private_keys_differ (profile : obj) (t1 t2 : token) :
  token_text t1 ≠ token_text t2 →
  privateCacheKey profile t1 ≠ privateCacheKey profile t2.
Proof.
  intros Hne Heq. unfold privateCacheKey in Heq.
  by do 3 apply (inj (String.app _)) in Heq.
Qed.

Lemma cached_after_save (profile : obj) (t : token) (fetched : list obj)
    (w : World) :
  cached_repos profile t (saveRepos profile t fetched w).2
  = Some (Repos (if supplied t then listed fetched
                 else public_of (listed fetched))).
Proof.
  rewrite saveRepos_eq. cbn [snd]. destruct (supplied t) eqn:Ht.
  - rewrite cached_repos_supplied by done. unfold cache_set. cbn [cache].
    rewrite lookup_insert_ne by apply own_keys_differ.
    by rewrite lookup_insert_eq.
  - rewrite cached_repos_anonymous by done. unfold cache_set. cbn [cache].
    by rewrite lookup_insert_eq.
Qed.

(** What a call that returns leaves behind: the world it started from on
    a cache hit, the saved lists after the pages on a miss. *)
Lemma fetchRepos_returns (env : Env) (fuel : nat) (profile : obj) (t : token)
    (w w' : World) (e : entry) :
  fetchReposForProfile env fuel profile t w = (Ret e, w') →
  (cached_repos profile t w = Some e ∧ w' = w) ∨
  ∃ fetched w1,
    cached_repos profile t w = None ∧
    paginate env fuel (listing profile).1 (listing profile).2 t 1 [] w
    = (Ret fetched, w1) ∧
    (Ret e, w') = saveRepos profile t fetched w1.
Proof.
  intros Hcall.
  destruct (cached_repos profile t w) as [hit |] eqn:Hc.
  - rewrite (fetchRepos_hit _ _ _ _ _ _ Hc) in Hcall.
    injection Hcall as <- <-. by left.
  - rewrite (fetchRepos_miss _ _ _ _ _ Hc) in Hcall.
    destruct (paginate _ _ _ _ _ _ _ _) as [[fetched | err |] w1] eqn:Hp;
      [| done..].
    right. exists fetched, w1. split; [done |]. split; [done |].
    by rewrite saveRepos_eq, <- Hcall.
Qed.

(** X11: a listing is remembered.  Once [fetchReposForProfile] has
    returned for a profile and a token, the same call made again returns
    the same value without issuing a request, whatever the provider
    would answer by then, as long as the cache keeps the entry. *)
Theorem fetchRepos_memoizes (env env' : Env) (fuel fuel' : nat)
    (profile : obj) (t : token) (w w' : World) (e : entry) :
  fetchReposForProfile env fuel profile t w = (Ret e, w') →
  fetchReposForProfile env' fuel' profile t w' = (Ret e, w').
Proof.
  intros Hcall. apply fetchRepos_hit.
  destruct (fetchRepos_returns _ _ _ _ _ _ _ Hcall)
    as [[Hhit ->] | (fetched & w1 & _ & _ & Hsave)]; [done |].
  pose proof (cached_after_save profile t fetched w1) as Hc.
  rewrite <- Hsave in Hc. cbn [snd] in Hc. rewrite Hc.
  rewrite saveRepos_eq in Hsave. by injection Hsave as ->.
Qed.

(** X12: a token-bearing listing warms the public cache.  After a call
    with a token that had to ask the provider and returned the list [l],
    a call without a token for the same profile is served from the cache:
    it returns the repositories of [l] whose [private] is [false] and
    issues no request. *)
Theorem fetchRepos_warms_public_cache (env env' : Env) (fuel fuel' : nat)
    (profile : obj) (t t0 : token) (w w' : World) (l : list obj) :
  supplied t = true →
  supplied t0 = false →
  cached_repos profile t w = None →
  fetchReposForProfile env fuel profile t w = (Ret (Repos l), w') →
  fetchReposForProfile env' fuel' profile t0 w'
  = (Ret (Repos (filter (fun r => not_private r) l)), w').
Proof.
  intros Ht Ht0 Hmiss Hcall. apply fetchRepos_hit.
  destruct (fetchRepos_returns _ _ _ _ _ _ _ Hcall)
    as [[Hhit _] | (fetched & w1 & _ & _ & Hsave)]; [congruence |].
  rewrite saveRepos_eq, Ht in Hsave. injection Hsave as -> ->.
  rewrite cached_repos_anonymous by done. unfold cache_set. cbn [cache].
  by rewrite lookup_insert_eq.
Qed.

(** X13: the private entries are scoped by token.  A call with one token
    does not change what a call with a different token, for the same
    profile, finds in the cache: the second caller is served its own
    earlier list or has to ask the provider. *)
Theorem fetchRepos_token_scoped (env : Env) (fuel : nat) (profile : obj)
    (t1 t2 : token) (w : World) :
  supplied t2 = true →
  token_text t1 ≠ token_text t2 →
  cached_repos profile t2 (fetchReposForProfile env fuel profile t1 w).2
  = cached_repos profile t2 w.
Proof.
  intros Ht2 Hne. rewrite !cached_repos_supplied by done.
  destruct (fetchRepos_cache env fuel profile t1 w) as [-> | [fetched ->]];
    [done |].
  rewrite lookup_insert_ne
    by (intros H; by apply (own_keys_differ profile t2)).
  by rewrite lookup_insert_ne by by apply private_keys_differ.
Qed.

(** X14: the list of a call without a token is stored under the token
    text [undefined].  After a call made with [undefined] as token that
    had to ask the provider, a call that supplies the string
    ["undefined"] as its token is served, without any request, everything
    the first call fetched that is no fork, the repositories whose
    [private] is not [false] included. *)
Theorem fetchRepos_undefined_token (env env' : Env) (fuel fuel' : nat)
    (profile : obj) (w w1 : World) (fetched : list obj) :
  cached_repos profile None w = None →
  paginate env fuel (listing profile).1 (listing profile).2 None 1 [] w
  = (Ret fetched, w1) →
  let w' := (fetchReposForProfile env fuel profile None w).2 in
  fetchReposForProfile env' fuel' profile (Some "undefined") w'
  = (Ret (Repos (map compactRepo (filter (fun r => not_fork r) fetched))),
     w').
Proof.
  intros Hmiss Hpages w'. apply fetchRepos_hit.
  rewrite cached_repos_supplied by done.
  unfold w'. rewrite (fetchRepos_miss _ _ _ _ _ Hmiss), Hpages.
  unfold cache_set. cbn [snd cache].
  rewrite lookup_insert_ne by apply own_keys_differ.
  by rewrite lookup_insert_eq.
Qed.

Lemma paginate_throws (env : Env) (fuel : nat) (path : string) (params : obj)
    (t : token) (page : Z) (acc : list obj) (w w' : World) (e : error) :
  paginate env fuel path params t page acc w = (Throw e, w') →
  ∃ reason h page' auth,
    e = Rejection reason ∧
    octokit env h Many path (page_params params page') auth = Err reason.
Proof.
  revert page acc w. induction fuel as [| fuel IH]; intros page acc w Hrun.
  - done.
  - rewrite paginate_turn in Hrun. unfold fetchWithOctokit in Hrun.
    destruct (octokit env (trace w) Many path _ _) as [fetched | reason]
      eqn:Hanswer.
    + destruct (bool_decide _); [done |]. by eapply IH.
    + injection Hrun as <- _. by eexists _, _, _, _.
Qed.

(** X15: a provider failure is handed on and nothing is cached.  When
    [fetchReposForProfile] throws, what it throws is the reason with
    which the provider rejected one of its page requests, unchanged, and
    the cache is as it was before the call: the pages fetched before the
    failure are not saved. *)
Theorem fetchRepos_failure (env : Env) (fuel : nat) (profile : obj)
    (t : token) (w w' : World) (e : error) :
  fetchReposForProfile env fuel profile t w = (Throw e, w') →
  cache w' = cache w ∧
  ∃ reason h page auth,
    e = Rejection reason ∧
    octokit env h Many (listing profile).1
      (page_params (listing profile).2 page) auth = Err reason.
Proof.
  intros Hcall.
  destruct (cached_repos profile t w) as [hit |] eqn:Hc.
  { by rewrite (fetchRepos_hit _ _ _ _ _ _ Hc) in Hcall. }
  rewrite (fetchRepos_miss _ _ _ _ _ Hc) in Hcall.
  pose proof (paginate_cache env fuel (listing profile).1
                (listing profile).2 t 1 [] w) as Hcache.
  destruct (paginate _ _ _ _ _ _ _ _) as [[fetched | err |] w1] eqn:Hp;
    [done | | done].
  injection Hcall as <- <-. split; [done |]. by eapply paginate_throws.
Qed.

Lemma paginate_endless (env : Env) (path : string) (params : obj) (t : token) :
  (∀ h params' auth,
     ∃ p, octokit env h Many path params' auth = Ok p ∧
          per_page ≤ length p) →
  ∀ (fuel : nat) (page : Z) (acc : list obj) (w : World),
    (paginate env fuel path params t page acc w).1 = OutOfFuel ∧
    length (trace (paginate env fuel path params t page acc w).2)
    = length (trace w) + fuel.
Proof.
  intros Hfull. induction fuel as [| fuel IH]; intros page acc w.
  - simpl. split; [done | lia].
  - rewrite paginate_turn. unfold fetchWithOctokit.
    destruct (Hfull (trace w) (page_params params page) (getOctokit env t w))
      as (p & -> & Hp).
    rewrite bool_decide_false by lia.
    destruct (IH (page + 1)%Z (acc ++ p)
                (log (Request path (page_params params page)
                        (getOctokit env t w)) w)) as [Hout Hlen].
    split; [done |]. rewrite Hlen. simpl. rewrite length_app. simpl. lia.
Qed.

(** X16: the loop has no bound of its own.  Against a provider that
    answers every page request of the listing with a full page, a call
    that misses the cache does not return: whatever fuel it is given it
    spends all of it, one request per unit, and writes nothing to the
    cache. *)
Theorem fetchRepos_endless (env : Env) (profile : obj) (t : token)
    (w : World) (fuel : nat) :
  (∀ h params auth,
     ∃ p, octokit env h Many (listing profile).1 params auth = Ok p ∧
          per_page ≤ length p) →
  cached_repos profile t w = None →
  (fetchReposForProfile env fuel profile t w).1 = OutOfFuel ∧
  cache (fetchReposForProfile env fuel profile t w).2 = cache w ∧
  length (trace (fetchReposForProfile env fuel profile t w).2)
  = length (trace w) + fuel.
Proof.
  intros Hfull Hmiss. rewrite (fetchRepos_miss _ _ _ _ _ Hmiss).
  destruct (paginate_endless env (listing profile).1 (listing profile).2 t
              Hfull fuel 1%Z [] w) as [Hout Hlen].
  pose proof (paginate_cache env fuel (listing profile).1
                (listing profile).2 t 1 [] w) as Hcache.
  destruct (paginate _ _ _ _ _ _ _ _) as [[fetched | err |] w1];
    simpl in *; done.
Qed.

(** X17: the requests of a listing.  Whatever the provider answers,
    [fetchReposForProfile] issues nothing but page requests of one
    listing operation, [repos.getForOrg] or [repos.getForUser], for the
    pages 1, 2, ... in order, each with [per_page] 100 and the profile's
    login, at most one per unit of fuel, and none at all when the cache
    has the entry.  It never asks the raw-content host. *)
Theorem fetchRepos_requests (env : Env) (fuel : nat) (profile : obj)
    (t : token) (w : World) :
  ((listing profile).1 = "repos.getForOrg" ∧
   (listing profile).2 = {[ "org" := get "login" profile ]} ∨
   (listing profile).1 = "repos.getForUser" ∧
   (listing profile).2 = {[ "username" := get "login" profile ]}) ∧
  ∃ auths,
    trace (fetchReposForProfile env fuel profile t w).2
    = trace w ++
        page_requests (listing profile).1 (listing profile).2 1 auths ∧
    length auths ≤ fuel ∧
    (is_Some (cached_repos profile t w) → auths = []).
Proof.
  split.
  { unfold listing. destruct (loosely_string _ _); [by left | by right]. }
  destruct (cached_repos profile t w) as [hit |] eqn:Hc.
  - rewrite (fetchRepos_hit _ _ _ _ _ _ Hc). exists []. simpl.
    split; [by rewrite app_nil_r |]. split; [lia | done].
  - rewrite (fetchRepos_miss _ _ _ _ _ Hc).
    destruct (paginate_trace env fuel (listing profile).1
                (listing profile).2 t 1 [] w) as (auths & Htrace & Hlen).
    exists auths.
    destruct (paginate _ _ _ _ _ _ _ _) as [[fetched | err |] w1];
      simpl in *; (split; [done |]); (split; [done |]);
      by intros [? ?].
Qed.

(** ** Code search *)

(** X18: code search is not cached and asks one thing only.  Whatever
    the provider answers, [searchFilesFromProfile] leaves the cache as it
    was and issues nothing but [search.code] requests, for the pages 1,
    2, ... in order with [per_page] 100, whose query is the scope
    [org:<login>] for an organization and [user:<login>] otherwise,
    a space, and [filename:<pattern>]. *)
Theorem searchFiles_requests (env : Env) (fuel : nat) (profile : obj)
    (pattern : string) (t : token) (w : World) :
  let q :=
    (if loosely_string "Organization" (get "type" profile)
     then "org:" else "user:")
      +:+ toStr (get "login" profile) +:+ " filename:" +:+ pattern in
  cache (searchFilesFromProfile env fuel profile pattern t w).2 = cache w ∧
  ∃ auths,
    trace (searchFilesFromProfile env fuel profile pattern t w).2
    = trace w ++ page_requests "search.code" {[ "q" := VStr q ]} 1 auths ∧
    length auths ≤ fuel.
Proof.
  intros q. unfold searchFilesFromProfile.
  assert ((if loosely_string "Organization" (get "type" profile)
           then "org:" +:+ toStr (get "login" profile)
           else "user:" +:+ toStr (get "login" profile))
            +:+ " " +:+ "filename:" +:+ pattern = q) as ->.
  { unfold q. by destruct (loosely_string _ _). }
  split; [apply search_pages_cache | apply search_pages_trace].
Qed.

Lemma file_reference_repo (item : value) (f : file) :
  file_reference item = Some f → repo f !! "fork" = None.
Proof.
  unfold file_reference. intros H.
  destruct (member item "repository") as [repository |]; [| done].
  destruct (member item "path") as [p |]; [| done].
  simpl in H. injection H as <-. simpl.
  destruct repository; apply compactRepo_no_fork.
Qed.

(** X19: code search keeps the forks.  When the provider answers the
    first request with fewer than 100 items, each with a [repository]
    and a [path] to read, the search returns after that one request with
    one file reference per item, none left out: an item in a forked
    repository is returned like the others, and the compact record it
    carries has lost the [fork] flag. *)
Theorem searchFiles_keeps_forks (env : Env) (fuel : nat) (profile : obj)
    (pattern : string) (t : token) (w : World) (found : obj)
    (items : list value) (files : list file) :
  let q :=
    (if loosely_string "Organization" (get "type" profile)
     then "org:" else "user:")
      +:+ toStr (get "login" profile) +:+ " filename:" +:+ pattern in
  let request :=
    Request "search.code" (page_params {[ "q" := VStr q ]} 1)
      (getOctokit env t w) in
  octokit env (trace w) Single "search.code"
    (page_params {[ "q" := VStr q ]} 1) (getOctokit env t w) = Ok found →
  get "items" found = VArr items →
  length items < per_page →
  mapM file_reference items = Some files →
  searchFilesFromProfile env (S fuel) profile pattern t w
  = (Ret files, log request w) ∧
  length files = length items ∧
  Forall (fun f => repo f !! "fork" = None) files.
Proof.
  intros q request Hanswer Hitems Hshort Hfiles.
  unfold searchFilesFromProfile.
  assert ((if loosely_string "Organization" (get "type" profile)
           then "org:" +:+ toStr (get "login" profile)
           else "user:" +:+ toStr (get "login" profile))
            +:+ " " +:+ "filename:" +:+ pattern = q) as ->.
  { unfold q. by destruct (loosely_string _ _). }
  assert (length files = length items) as Hlen
    by (symmetry; by eapply length_mapM).
  split; [| split; [done |]].
  - simpl. unfold mbind, M_bind, fetchWithOctokit.
    rewrite Hanswer, Hitems. cbn [file_references]. rewrite Hfiles.
    by rewrite bool_decide_true by lia.
  - apply mapM_Some in Hfiles. clear Hlen Hshort Hitems.
    induction Hfiles as [| item f items files Hf _ IH]; constructor;
      [by eapply file_reference_repo | done].
Qed.

(** ** File contents *)

(** X20: file contents are not cached and cost at most one request.
    Whatever the outcome, [fetchFileFromRepo] leaves the cache as it was.
    On the authenticated route (no default branch, or [private] is
    [true]) a record whose [owner] is [undefined] or [null] makes it
    throw a TypeError before any request; every other record makes it
    issue exactly one request, [repos.getContent] with the owner's login,
    the repository's name and the path, under the credential
    [getOctokit] resolves.  On the public route, where the owner is not
    read, it issues exactly one request, the raw fetch of the file's
    URL. *)
Theorem fetchFile_one_request (env : Env) (repo : obj) (path : string)
    (t : token) (w : World) :
  cache (fetchFileFromRepo env repo path t w).2 = cache w ∧
  if negb (truthy (get "default_branch" repo))
     || is_bool true (get "private" repo)
  then
    match member (get "owner" repo) "login" with
    | None => fetchFileFromRepo env repo path t w = (Throw TypeError, w)
    | Some login =>
        trace (fetchFileFromRepo env repo path t w).2
        = trace w ++
            [Request "repos.getContent"
               {[ "owner" := login; "repo" := get "name" repo;
                  "path" := VStr path ]}
               (getOctokit env t w)]
    end
  else
    trace (fetchFileFromRepo env repo path t w).2
    = trace w ++ [RawFetch (baseRawUrl +:+ relativeUrl repo path)].
Proof.
  split; [apply fetchFile_cache |].
  unfold fetchFileFromRepo. destruct (_ || _).
  - destruct (member _ _) as [login |]; [| done].
    unfold mbind, M_bind.
    pose proof (fetchWithOctokit_trace env Single "repos.getContent"
      {[ "owner" := login; "repo" := get "name" repo; "path" := VStr path ]}
      t w) as Htrace.
    destruct (fetchWithOctokit _ _ _ _ _ _) as [[data | e |] w1];
      simpl in *; try done.
    unfold getContent. by destruct (Buffer_base64_utf8 _ _).
  - unfold mbind, M_bind, raw_fetch.
    destruct (fetch _ _ _) as [r | reason]; simpl; [| done].
    by destruct (bool_decide _).
Qed.

Lemma get_compactRepo (r : obj) (k : string) :
  k ∈ ["id"; "name"; "full_name"; "default_branch"; "private"; "language"] →
  get k (compactRepo r) = get k r.
Proof. intros Hk. unfold get. by rewrite compactRepo_lookup_kept. Qed.

Lemma member_compact_owner (r : obj) (login : value) :
  member (get "owner" r) "login" = Some login →
  member (get "owner" (compactRepo r)) "login" = Some login.
Proof.
  unfold get at 2. rewrite compactRepo_lookup_owner. simpl.
  destruct (get "owner" r) as [| | | | | | o]; simpl; try done.
  unfold get. rewrite lookup_pick.
  by rewrite decide_True by (rewrite elem_of_cons; by left).
Qed.

(** X21: compaction keeps what [fetchFileFromRepo] reads.  For a
    provider record whose [owner] can be read, fetching a file of the
    compact record does exactly what fetching it of the full record
    does: the same route, the same request, the same outcome. *)
Theorem fetchFile_of_compact (env : Env) (r : obj) (path : string)
    (t : token) (w : World) (login : value) :
  member (get "owner" r) "login" = Some login →
  fetchFileFromRepo env (compactRepo r) path t w
  = fetchFileFromRepo env r path t w.
Proof.
  intros Howner. unfold fetchFileFromRepo, relativeUrl.
  rewrite (member_compact_owner r login Howner), Howner.
  rewrite !get_compactRepo; [done | ..];
    rewrite !elem_of_cons; naive_solver.
Qed.

(** ** The further properties at work *)

(** X4 at work: two donated tokens, no caller token. *)
Lemma getOctokit_draws_from_pool_witness :
  getOctokit (provider []) None donated ∈ donatedTokens donated.
Proof.
  apply (getOctokit_draws_from_pool (provider []) None donated).
  - reflexivity.
  - discriminate.
  - repeat constructor.
Defined.

(** X5 at work: the first donation at start-up. *)
Lemma donated_token_is_used_witness :
  getOctokit (provider []) None (donateToken (Some "alice-token") boot).2
  = Some "alice-token".
Proof.
  apply (donated_token_is_used (provider []) (Some "alice-token") None boot);
    reflexivity.
Defined.

(** X6 at work: a donation and a listing after two donations. *)
Lemma pool_only_grows_witness :
  donatedTokens donated `prefix_of`
    donatedTokens
      (run (provider []) 3
         [Donate (Some "carol-token"); FetchRepos octocat None] donated).
Proof.
  apply (pool_only_grows (provider []) 3
           [Donate (Some "carol-token"); FetchRepos octocat None] donated).
  repeat constructor; discriminate.
Defined.

(** X8 at work: [octocat] resolved once, asked again of a provider that
    no longer knows it. *)
Lemma fetchProfile_memoizes_witness :
  let w' := (fetchProfile directory "octocat" None boot).2 in
  fetchProfile quirky "octocat" (Some "caller-token") w'
  = (Ret (Some (Profile octocat)), w').
Proof.
  intros w'.
  apply (fetchProfile_memoizes directory quirky "octocat" None
           (Some "caller-token") boot w' (Profile octocat)).
  reflexivity.
Defined.

(** X9 at work: a login the provider does not know. *)
Lemma fetchProfile_null_not_cached_witness :
  let w' := (fetchProfile (provider []) "ghost" None boot).2 in
  cache w' = cache boot ∧
  cache_get ("profile_" +:+ "ghost") w' = None ∧
  ∃ auth1 auth2,
    trace w' = trace boot ++
      [Request "users.getForUser" {[ "username" := VStr "ghost" ]} auth1;
       Request "orgs.get" {[ "org" := VStr "ghost" ]} auth2].
Proof.
  intros w'.
  apply (fetchProfile_null_not_cached (provider []) "ghost" None boot w').
  reflexivity.
Defined.

(** X10 at work: the user lookup answers with an organization's record
    and the organization lookup is rejected. *)
Lemma fetchProfile_user_answer_witness :
  fetchProfile quirky "acme" None boot
  = (Ret None,
     mkWorld ∅
       [Request "users.getForUser" {[ "username" := VStr "acme" ]}
          (Some "guest-token");
        Request "orgs.get" {[ "org" := VStr "acme" ]}
          (Some "guest-token")]) ∧
  fetchProfile directory "octocat" None boot
  = (Ret (Some (Profile octocat)),
     mkWorld {[ "profile_octocat" := Profile octocat ]}
       [Request "users.getForUser" {[ "username" := VStr "octocat" ]}
          (Some "guest-token")]).
Proof.
  split.
  - destruct (fetchProfile_user_answer quirky "acme" None boot acme
                eq_refl eq_refl) as [_ Horg].
    exact (Horg eq_refl).
  - destruct (fetchProfile_user_answer directory "octocat" None boot octocat
                eq_refl eq_refl) as [Huser _].
    rewrite Huser by discriminate. reflexivity.
Defined.

(** X11 at work: a listing asked again of a provider that would fail. *)
Lemma fetchRepos_memoizes_witness :
  let E := provider [hello; spoon; vault] in
  let w' := (fetchReposForProfile E 3 octocat (Some "octocat-token") boot).2 in
  fetchReposForProfile flaky 0 octocat (Some "octocat-token") w'
  = (Ret (Repos [compactRepo hello; compactRepo vault]), w').
Proof.
  intros E w'.
  apply (fetchRepos_memoizes E flaky 3 0 octocat (Some "octocat-token")
           boot w').
  reflexivity.
Defined.

(** X12 at work: a listing without a token after one with a token. *)
Lemma fetchRepos_warms_public_cache_witness :
  let E := provider [hello; spoon; vault] in
  let w' := (fetchReposForProfile E 3 octocat (Some "octocat-token") boot).2 in
  fetchReposForProfile flaky 0 octocat None w'
  = (Ret (Repos [compactRepo hello]), w').
Proof.
  intros E w'.
  apply (fetchRepos_warms_public_cache E flaky 3 0 octocat
           (Some "octocat-token") None boot w'
           [compactRepo hello; compactRepo vault]); reflexivity.
Defined.

(** X13 at work: two callers with tokens of their own. *)
Lemma fetchRepos_token_scoped_witness :
  let E := provider [hello; spoon; vault] in
  cached_repos octocat (Some "bob-token")
    (fetchReposForProfile E 3 octocat (Some "alice-token") boot).2
  = None.
Proof.
  intros E.
  rewrite (fetchRepos_token_scoped E 3 octocat (Some "alice-token")
             (Some "bob-token") boot); [reflexivity | reflexivity |].
  discriminate.
Defined.

(** X14 at work: the private [vault], fetched for a caller without a
    token, is served to the token ["undefined"]. *)
Lemma fetchRepos_undefined_token_witness :
  let E := provider [hello; spoon; vault] in
  let w' := (fetchReposForProfile E 3 octocat None boot).2 in
  (fetchReposForProfile E 3 octocat None boot).1
  = Ret (Repos [compactRepo hello]) ∧
  fetchReposForProfile flaky 0 octocat (Some "undefined") w'
  = (Ret (Repos [compactRepo hello; compactRepo vault]), w').
Proof.
  intros E w'. split; [reflexivity |].
  apply (fetchRepos_undefined_token E flaky 3 0 octocat boot
           (paginate E 3 (listing octocat).1 (listing octocat).2 None 1 []
              boot).2
           [hello; spoon; vault]); reflexivity.
Defined.

(** X15 at work: the second page request is rejected. *)
Lemma fetchRepos_failure_witness :
  (fetchReposForProfile flaky 3 octocat None boot).1
  = Throw (Rejection (VStr "rate limit exceeded")) ∧
  cache (fetchReposForProfile flaky 3 octocat None boot).2 = cache boot.
Proof.
  split; [reflexivity |].
  destruct (fetchRepos_failure flaky 3 octocat None boot
              (fetchReposForProfile flaky 3 octocat None boot).2
              (Rejection (VStr "rate limit exceeded")) eq_refl)
    as [Hcache _].
  exact Hcache.
Defined.

(** X16 at work: four units of fuel against full pages. *)
Lemma fetchRepos_endless_witness :
  (fetchReposForProfile endless 4 octocat None boot).1 = OutOfFuel ∧
  length (trace (fetchReposForProfile endless 4 octocat None boot).2) = 4.
Proof.
  destruct (fetchRepos_endless endless octocat None boot 4)
    as (Hout & _ & Hlen).
  - intros h params auth. exists (replicate 100 ∅).
    split; [reflexivity |]. rewrite length_replicate. unfold per_page. lia.
  - reflexivity.
  - split; [exact Hout | exact Hlen].
Defined.

(** X19 at work: the one file found is in the fork [spoon]. *)
Lemma searchFiles_keeps_forks_witness :
  get "fork" spoon = VBool true ∧
  (searchFilesFromProfile searcher 1 octocat "package.json" None boot).1
  = Ret [mkFile (compactRepo spoon) (VStr "package.json")].
Proof.
  split; [reflexivity |].
  destruct (searchFiles_keeps_forks searcher 0 octocat "package.json" None
              boot
              {[ "total_count" := VNum 1;
                 "items" :=
                   VArr [VObj {[ "repository" := VObj spoon;
                                 "path" := VStr "package.json" ]}] ]}
              [VObj {[ "repository" := VObj spoon;
                       "path" := VStr "package.json" ]}]
              [mkFile (compactRepo spoon) (VStr "package.json")])
    as (Hcall & _ & _).
  - reflexivity.
  - reflexivity.
  - unfold per_page. simpl. lia.
  - reflexivity.
  - by rewrite Hcall.
Defined.

(** X21 at work: the public [hello], full and compact. *)
Lemma fetchFile_of_compact_witness :
  fetchFileFromRepo (provider []) (compactRepo hello) "package.json" None boot
  = fetchFileFromRepo (provider []) hello "package.json" None boot.
Proof.
  apply (fetchFile_of_compact (provider []) hello "package.json" None boot
           (VStr "octocat")).
  reflexivity.
Defined.
